(** * Community-level crime classification pipeline (question_4)

    A shallow embedding of [question_4-checkpoint.py]: the filter on the
    incident table, the per-area aggregation, the relabeling of the three
    k-means clusters into crime levels, the right join with the census table
    followed by [dropna], the min-max normalisation and the train/test split.

    Conventions.
    - A pandas cell that may be missing is an [option]: [None] is NaN.
    - Floating-point numbers are rationals [Q]; the only non-finite value the
      script can produce is the NaN of a [0/0] in [normalize_df].
    - A Python exception is a value of [exn]; a computation that may raise
      returns a [result].
    - scikit-learn's estimators (KMeans, the shuffle of train_test_split,
      LogisticRegression) are not part of the script: they are parameters. *)

From Stdlib Require Import String.
From Stdlib Require Import List ZArith QArith Qminmax Qfield Lqa Bool Arith Lia.
From Stdlib Require Import Permutation Sorted.
Import ListNotations.

Local Open Scope Z_scope.

(** ** Exceptions *)

Inductive exn : Type :=
| KeyError (key : string)
| ValueError (msg : string).

Inductive result (A : Type) : Type :=
| Ok (a : A)
| Raise (e : exn).

Arguments Ok {A} a.
Arguments Raise {A} e.

Definition bind {A B : Type} (c : result A) (k : A -> result B) : result B :=
  match c with
  | Ok a => k a
  | Raise e => Raise e
  end.

Notation "x <- c ;; k" := (bind c (fun x => k))
  (at level 61, c at next level, right associativity).

(** A cell of a float64 column: [None] is NaN. *)
Definition cell (A : Type) : Type := option A.

Definition notna {A : Type} (c : cell A) : bool :=
  match c with Some _ => true | None => false end.

(** ** The incident table

    [df_crime] is column-oriented, as a DataFrame is: a column the CSV does
    not carry is absent ([None]) and reading it raises [KeyError]. The
    community area column is float64 in the file (it has gaps) and holds
    integer identifiers; it is [K = cell Z] before [filter_df] and [K = Z]
    once it has been cast with [astype(int)]. *)

Record crime_frame (K : Type) : Type := mk_crime_frame {
  Year : option (list Z);
  Community_Area : option (list K);
  Arrest : option (list bool);
  Domestic : option (list bool)
}.

Arguments mk_crime_frame {K}.
Arguments Year {K}.
Arguments Community_Area {K}.
Arguments Arrest {K}.
Arguments Domestic {K}.

(** [df[name]] *)
Definition getitem {A : Type} (name : string) (col : option (list A))
  : result (list A) :=
  match col with
  | Some v => Ok v
  | None => Raise (KeyError name)
  end.

(** [series[mask]]: the entries whose mask bit is set. *)
Fixpoint take_mask {A : Type} (mask : list bool) (xs : list A) : list A :=
  match mask, xs with
  | m :: mask', x :: xs' =>
      if m then x :: take_mask mask' xs' else take_mask mask' xs'
  | _, _ => []
  end.

(** [df[mask]]: the mask selects rows, in every column that exists. *)
Definition loc {K : Type} (mask : list bool) (df : crime_frame K) : crime_frame K :=
  {| Year := option_map (take_mask mask) (Year df);
     Community_Area := option_map (take_mask mask) (Community_Area df);
     Arrest := option_map (take_mask mask) (Arrest df);
     Domestic := option_map (take_mask mask) (Domestic df) |}.

(** [x != 0] on a float64 cell: NaN differs from every number. *)
Definition ne_zero (c : cell Z) : bool :=
  match c with
  | Some a => negb (a =? 0)
  | None => true
  end.

(** [astype(int)]: a NaN cannot be cast. *)
Fixpoint astype_int (col : list (cell Z)) : result (list Z) :=
  match col with
  | [] => Ok []
  | Some a :: col' => rest <- astype_int col' ;; Ok (a :: rest)
  | None :: _ => Raise (ValueError "Cannot convert non-finite values (NA or inf) to integer")
  end.

Definition filter_df (df_crime : crime_frame (cell Z)) : result (crime_frame Z) :=
  (* keep data from 2008-2012 *)
  year <- getitem "Year" (Year df_crime) ;;
  let df_filtered :=
    loc (map (fun y => (2008 <=? y) && (y <=? 2012)) year) df_crime in
  (* No area 0 *)
  area <- getitem "Community Area" (Community_Area df_filtered) ;;
  let df_filtered := loc (map ne_zero area) df_filtered in
  (* drop NaN *)
  area <- getitem "Community Area" (Community_Area df_filtered) ;;
  let df_filtered := loc (map notna area) df_filtered in
  (* Change the data type *)
  area <- getitem "Community Area" (Community_Area df_filtered) ;;
  area <- astype_int area ;;
  Ok {| Year := Year df_filtered;
        Community_Area := Some area;
        Arrest := Arrest df_filtered;
        Domestic := Domestic df_filtered |}.

(** ** Sorting

    [sort_values] and [sort_index] are called with pandas' default sort
    kind, which has no stability contract: the call promises the rows in
    the order of the key, and nothing about rows with equal keys.
    [isort le] stands for it. It is an insertion sort that puts an entry in
    front of the first entry [y] of the sorted rest with [le x y], so it
    happens to keep equal keys in their order; that is a choice of the
    model, not of the script. The order of equal keys could show in one
    place only, the three centroids (everywhere else the keys are distinct,
    or the result is sorted again by distinct keys), and what is proved
    about tied centroids is proved for every descending sort. *)

Section InsertionSort.
Context {A : Type} (le : A -> A -> bool).

Fixpoint insert (x : A) (l : list A) : list A :=
  match l with
  | [] => [x]
  | y :: l' => if le x y then x :: l else y :: insert x l'
  end.

Fixpoint isort (l : list A) : list A :=
  match l with
  | [] => []
  | x :: l' => insert x (isort l')
  end.
End InsertionSort.

(** ** Series indexed by community area *)

Definition Series (V : Type) : Type := list (Z * V).

Definition index {V : Type} (s : Series V) : list Z := map fst s.

Definition sort_index {V : Type} (s : Series V) : Series V :=
  isort (fun a b => fst a <=? fst b) s.

Definition lookup {V : Type} (k : Z) (s : Series V) : option V :=
  option_map snd (find (fun p => fst p =? k) s).

(** The distinct values, by first appearance. *)
Fixpoint unique (xs : list Z) : list Z :=
  match xs with
  | [] => []
  | x :: xs' => x :: filter (fun y => negb (y =? x)) (unique xs')
  end.

Definition count (k : Z) (xs : list Z) : nat :=
  length (filter (Z.eqb k) xs).

(** [series.value_counts()]: one entry per distinct value, most frequent
    first. *)
Definition value_counts (xs : list Z) : Series nat :=
  isort (fun a b => (snd b <=? snd a)%nat)
        (map (fun k => (k, count k xs)) (unique xs)).

(** The values of the rows whose key is [k]. *)
Definition group {V : Type} (keys : list Z) (vals : list V) (k : Z) : list V :=
  map snd (filter (fun p => fst p =? k) (combine keys vals)).

Definition count_true (vs : list bool) : nat :=
  length (filter (fun b => b) vs).

(** [mean()] of a boolean column: the share of [True]; NaN on no rows. *)
Definition mean (vs : list bool) : cell Q :=
  match vs with
  | [] => None
  | _ :: _ => Some (Z.of_nat (count_true vs) # Pos.of_nat (length vs))
  end.

(** [df.groupby(key)[name]]: the selection of a column of the groups. *)
Definition groupby_getitem {A : Type} (name : string) (col : option (list A))
  : result (list A) :=
  match col with
  | Some v => Ok v
  | None => Raise (KeyError ("Column not found: " ++ name))
  end.

(** [df.groupby(key)[col].mean()]: groups come sorted by key. *)
Definition groupby_mean (keys : list Z) (vals : list bool) : Series (cell Q) :=
  map (fun k => (k, mean (group keys vals k))) (isort Z.leb (unique keys)).

(** ** The community table *)

Record community_row : Type := mk_community_row {
  Crime_Count : cell nat;
  Arrest_Rate : cell Q;
  Domestic_Rate : cell Q
}.

Definition join_cell {A : Type} (c : option (cell A)) : cell A :=
  match c with
  | Some v => v
  | None => None
  end.

(** The index of a DataFrame built from several Series: theirs when they all
    carry the same one, else their sorted union. *)
Definition union_indexes (i1 i2 i3 : list Z) : list Z :=
  let union := isort Z.leb (unique (i1 ++ i2 ++ i3)) in
  if list_eq_dec Z.eq_dec i1 i2
  then if list_eq_dec Z.eq_dec i1 i3 then i1 else union
  else union.

(** [pd.DataFrame({'Crime Count': .., 'Arrest Rate': .., 'Domestic Rate': ..})]:
    the Series are aligned on the index; a Series with no entry for a key
    leaves a NaN. *)
Definition DataFrame (crime_counts : Series nat)
    (arrest_rate domestic_rate : Series (cell Q)) : Series community_row :=
  map (fun k => (k, {| Crime_Count := lookup k crime_counts;
                       Arrest_Rate := join_cell (lookup k arrest_rate);
                       Domestic_Rate := join_cell (lookup k domestic_rate) |}))
      (union_indexes (index crime_counts) (index arrest_rate) (index domestic_rate)).

(** [main], lines 137-153: from the incident table to [community_data]. *)
Definition community_data_of (df_crime : crime_frame (cell Z))
  : result (Series community_row) :=
  (* Filtering the data *)
  df_filtered <- filter_df df_crime ;;
  (* Compute the crime counts for each community *)
  area <- getitem "Community Area" (Community_Area df_filtered) ;;
  let crime_counts := sort_index (value_counts area) in
  (* Compute the arrest rate for each community *)
  arrest <- groupby_getitem "Arrest" (Arrest df_filtered) ;;
  let arrest_rate := sort_index (groupby_mean area arrest) in
  (* Compute the domestic rate for each community *)
  domestic <- groupby_getitem "Domestic" (Domestic df_filtered) ;;
  let domestic_rate := sort_index (groupby_mean area domestic) in
  (* Gathering data *)
  Ok (DataFrame crime_counts arrest_rate domestic_rate).

(** An incident record, and the table a list of records makes. *)
Record incident : Type := mk_incident {
  year : Z;
  community_area : cell Z;
  arrest_made : bool;
  is_domestic : bool
}.

Definition frame_of (recs : list incident) : crime_frame (cell Z) :=
  {| Year := Some (map year recs);
     Community_Area := Some (map community_area recs);
     Arrest := Some (map arrest_made recs);
     Domestic := Some (map is_domestic recs) |}.

(** ** Clustering and relabeling

    [KMeans(n_clusters=3, random_state=20)] is scikit-learn's: an estimator is
    any function from the table to the labels of [fit_predict] and the rows of
    [cluster_centers_]. A centre has the table's three coordinates, in the
    order of its columns. *)

Record centroid : Type := mk_centroid {
  centre_crime_count : Q;
  centre_arrest_rate : Q;
  centre_domestic_rate : Q
}.

Record KMeans_fit : Type := mk_KMeans_fit {
  labels_ : list nat;
  cluster_centers_ : list centroid
}.

Definition estimator : Type := list community_row -> result KMeans_fit.

Record labelled_row : Type := mk_labelled_row {
  stats : community_row;
  Cluster : nat;
  Crime_Level : cell string
}.

(** [pd.DataFrame(centroids, ...)]: the rows get the index 0, 1, 2, ... *)
Definition centroid_df (centroids : list centroid) : list (nat * centroid) :=
  combine (seq 0 (List.length centroids)) centroids.

(** [sort_values(by='Crime Count', ascending=False)] *)
Definition sort_values_desc (df : list (nat * centroid)) : list (nat * centroid) :=
  isort (fun a b => Qle_bool (centre_crime_count (snd b))
                             (centre_crime_count (snd a))) df.

Definition crime_levels : list string := ["High"; "Moderate"; "Low"]%string.

(** [sorted_centroids['Crime Level'] = crime_levels] followed by
    [sorted_centroids['Crime Level'].to_dict()]: a list becomes a column only
    of a table with as many rows. *)
Definition cluster_labels (centroids : list centroid) : result (list (nat * string)) :=
  let sorted_centroids := sort_values_desc (centroid_df centroids) in
  if (List.length sorted_centroids =? List.length crime_levels)%nat
  then Ok (combine (map fst sorted_centroids) crime_levels)
  else Raise (ValueError "Length of values does not match length of index").

(** [dict.get]: what [Series.map(dict)] looks up; no entry leaves a NaN. *)
Definition dict_get {V : Type} (d : list (nat * V)) (k : nat) : cell V :=
  option_map snd (find (fun p => (fst p =? k)%nat) d).

Definition KMeans_clustering (kmeans : estimator)
    (community_data : Series community_row) : result (Series labelled_row) :=
  fit <- kmeans (map snd community_data) ;;
  (* community_data['Cluster'] = kmeans.fit_predict(community_data) *)
  clustered <-
    (if (List.length (labels_ fit) =? List.length community_data)%nat
     then Ok (combine community_data (labels_ fit))
     else Raise (ValueError "Length of values does not match length of index")) ;;
  labels <- cluster_labels (cluster_centers_ fit) ;;
  (* Assging the clustering label with the crime level *)
  Ok (map (fun r => (fst (fst r),
                     {| stats := snd (fst r);
                        Cluster := snd r;
                        Crime_Level := dict_get labels (snd r) |}))
          clustered).

(** ** The census table and the join *)

Inductive indicator_name : Type :=
| PERCENT_OF_HOUSING_CROWDED
| PERCENT_HOUSEHOLDS_BELOW_POVERTY
| PERCENT_AGED_16_UNEMPLOYED
| PERCENT_AGED_25_WITHOUT_HIGH_SCHOOL_DIPLOMA
| PERCENT_AGED_UNDER_18_OR_OVER_64
| HARDSHIP_INDEX.

Definition percentage_col : list indicator_name :=
  [ PERCENT_OF_HOUSING_CROWDED;
    PERCENT_HOUSEHOLDS_BELOW_POVERTY;
    PERCENT_AGED_16_UNEMPLOYED;
    PERCENT_AGED_25_WITHOUT_HIGH_SCHOOL_DIPLOMA;
    PERCENT_AGED_UNDER_18_OR_OVER_64;
    HARDSHIP_INDEX ].

Definition indicators : Type := indicator_name -> cell Q.

Record census_row : Type := mk_census_row {
  Community_Area_Number : cell Z;
  COMMUNITY_AREA_NAME : cell string;
  indicator : indicators;
  PER_CAPITA_INCOME : cell Q
}.

(** A row of the merged table: the columns of [community_data] (all NaN when
    no community row has the key) next to those of the census row. *)
Record merged_row : Type := mk_merged_row {
  left : option (Z * labelled_row);
  right : census_row
}.

Definition key_eqb (k : Z) (c : cell Z) : bool :=
  match c with
  | Some k' => k =? k'
  | None => false
  end.

(** [pd.merge(community_data, df_census, left_on='Community Area',
    right_on='Community Area Number', how='right')] *)
Definition merge_right (community_data : Series labelled_row)
    (df_census : list census_row) : list merged_row :=
  flat_map
    (fun r =>
       match filter (fun l => key_eqb (fst l) (Community_Area_Number r))
                    community_data with
       | [] => [ {| left := None; right := r |} ]
       | matches => map (fun l => {| left := Some l; right := r |}) matches
       end)
    df_census.

Definition left_complete (l : option (Z * labelled_row)) : bool :=
  match l with
  | Some (_, row) =>
      notna (Crime_Count (stats row)) && notna (Arrest_Rate (stats row))
      && notna (Domestic_Rate (stats row)) && notna (Crime_Level row)
  | None => false
  end.

Definition right_complete (r : census_row) : bool :=
  notna (Community_Area_Number r) && notna (COMMUNITY_AREA_NAME r)
  && forallb (fun c => notna (indicator r c)) percentage_col
  && notna (PER_CAPITA_INCOME r).

(** [merged_df.dropna()]: a row with a NaN in any column goes. *)
Definition dropna (merged_df : list merged_row) : list merged_row :=
  filter (fun m => left_complete (left m) && right_complete (right m)) merged_df.

(** ** Normalisation *)

Definition column (df : list indicators) (c : indicator_name) : list (cell Q) :=
  map (fun r => r c) df.

Definition present (col : list (cell Q)) : list Q :=
  flat_map (fun c => match c with Some q => [q] | None => [] end) col.

(** [df.min()] and [df.max()] skip NaN; a column with no value gives NaN. *)
Definition col_min (col : list (cell Q)) : cell Q :=
  match present col with
  | [] => None
  | q :: qs => Some (fold_left Qmin qs q)
  end.

Definition col_max (col : list (cell Q)) : cell Q :=
  match present col with
  | [] => None
  | q :: qs => Some (fold_left Qmax qs q)
  end.

Definition fsub (a b : cell Q) : cell Q :=
  match a, b with
  | Some x, Some y => Some (x - y)%Q
  | _, _ => None
  end.

(** Float division. [0/0] is NaN. A non-zero numerator over 0 would be an
    infinity; [normalize_df] never divides one (see [normalize_df_num_zero]),
    so that case is given the NaN as well. *)
Definition fdiv (a b : cell Q) : cell Q :=
  match a, b with
  | Some x, Some y => if Qeq_bool y 0 then None else Some (x / y)%Q
  | _, _ => None
  end.

Definition normalize_df (df : list indicators) : list indicators :=
  let df_min := fun c => col_min (column df c) in
  let df_max := fun c => col_max (column df c) in
  map (fun r c => fdiv (fsub (r c) (df_min c)) (fsub (df_max c) (df_min c))) df.

(** ** Supervised evaluation

    [train_test_split(X, y, test_size=0.2, random_state=44)] draws a
    permutation of the row numbers, gives its first [ceil(0.2 n)] rows to the
    test part and the rest to the training part, and refuses an empty
    training part. The permutation drawn from seed 44 and the classifier are
    scikit-learn's: parameters. *)

Definition n_test_of (n : nat) : nat := ((n + 4) / 5)%nat.

(** [X.iloc[idx]] *)
Fixpoint iloc {A : Type} (X : list A) (idx : list nat) : result (list A) :=
  match idx with
  | [] => Ok []
  | i :: idx' =>
      match nth_error X i with
      | Some x => rest <- iloc X idx' ;; Ok (x :: rest)
      | None => Raise (ValueError "positional indexers are out-of-bounds")
      end
  end.

Record split (A B : Type) : Type := mk_split {
  X_train : list A;
  X_test : list A;
  y_train : list B;
  y_test : list B
}.

Arguments mk_split {A B}.
Arguments X_train {A B}.
Arguments X_test {A B}.
Arguments y_train {A B}.
Arguments y_test {A B}.

Record evaluation : Type := mk_evaluation {
  eval_X_train : list indicators;
  eval_y_test : list (cell nat);
  eval_y_pred : list nat
}.

(** [merged_df[percentage_col]] *)
Definition independent_of (merged_df : list merged_row) : list indicators :=
  map (fun m => indicator (right m)) merged_df.

(** [merged_df['Cluster']] *)
Definition cluster_column (merged_df : list merged_row) : list (cell nat) :=
  map (fun m => option_map (fun l => Cluster (snd l)) (left m)) merged_df.

Section Sklearn.
(** [RandomState(44).permutation(n)] *)
Variable permutation : nat -> list nat.
(** [LogisticRegression(multi_class='multinomial')]: [fit] on the training
    part, then [predict] on the test part. *)
Variable fit_predict :
  list indicators -> list (cell nat) -> list indicators -> result (list nat).

Definition train_test_split {A B : Type} (X : list A) (y : list B)
  : result (split A B) :=
  let n := List.length X in
  if negb (List.length y =? n)%nat
  then Raise (ValueError "Found input variables with inconsistent numbers of samples")
  else
    let n_test := n_test_of n in
    let n_train := (n - n_test)%nat in
    if (n_train =? 0)%nat
    then Raise (ValueError "the resulting train set will be empty")
    else
      let perm := permutation n in
      let ind_test := firstn n_test perm in
      let ind_train := firstn n_train (skipn n_test perm) in
      Xtr <- iloc X ind_train ;;
      Xte <- iloc X ind_test ;;
      ytr <- iloc y ind_train ;;
      yte <- iloc y ind_test ;;
      Ok (mk_split Xtr Xte ytr yte).

Definition logistic_regression (merged_df : list merged_row) : result evaluation :=
  (* Preparing the independent data, normalization *)
  let independent := independent_of merged_df in
  let independent := normalize_df independent in
  s <- train_test_split independent (cluster_column merged_df) ;;
  (* Training the model *)
  y_pred <- fit_predict (X_train s) (y_train s) (X_test s) ;;
  Ok (mk_evaluation (X_train s) (y_test s) y_pred).

Variable kmeans : estimator.

(** [main], without the plots: the report is printed from [y_test] and
    [y_pred]. *)
Definition main (df_crime : crime_frame (cell Z)) (df_census : list census_row)
  : result evaluation :=
  community_data <- community_data_of df_crime ;;
  (* Clustering the data *)
  community_data <- KMeans_clustering kmeans community_data ;;
  (* Merging the data *)
  let merged_df := merge_right community_data df_census in
  let merged_df := dropna merged_df in
  (* Training the model and print a report about it *)
  logistic_regression merged_df.
End Sklearn.

(** * Properties *)

(** ** Insertion sort *)

Section InsertionSortFacts.
Context {A : Type} (le : A -> A -> bool).

Lemma insert_perm (x : A) (l : list A) : Permutation (insert le x l) (x :: l).
Proof.
  induction l as [|y l IH]; simpl.
  - apply Permutation_refl.
  - destruct (le x y).
    + apply Permutation_refl.
    + eapply perm_trans; [apply perm_skip, IH | apply perm_swap].
Qed.

Lemma isort_perm (l : list A) : Permutation (isort le l) l.
Proof.
  induction l as [|x l IH]; simpl.
  - constructor.
  - eapply perm_trans; [apply insert_perm | apply perm_skip, IH].
Qed.

Lemma isort_length (l : list A) : List.length (isort le l) = List.length l.
Proof. apply Permutation_length, isort_perm. Qed.

Lemma isort_In (x : A) (l : list A) : In x (isort le l) <-> In x l.
Proof.
  split; apply Permutation_in; [|apply Permutation_sym]; apply isort_perm.
Qed.

Hypothesis le_total : forall x y, le x y = true \/ le y x = true.
Hypothesis le_trans : forall x y z, le x y = true -> le y z = true -> le x z = true.

Lemma insert_sorted (x : A) (l : list A) :
  StronglySorted (fun a b => le a b = true) l ->
  StronglySorted (fun a b => le a b = true) (insert le x l).
Proof.
  induction 1 as [|y l Hs IH Hy]; simpl.
  - repeat constructor.
  - destruct (le x y) eqn:E.
    + constructor; [constructor; assumption|].
      constructor; [assumption|].
      rewrite Forall_forall in *. intros z Hz. eauto.
    + constructor; [assumption|].
      rewrite Forall_forall in *. intros z Hz.
      apply (Permutation_in _ (insert_perm x l)) in Hz.
      destruct Hz as [<-|Hz]; [|auto].
      destruct (le_total x y) as [H|H]; congruence.
Qed.

Lemma isort_sorted (l : list A) :
  StronglySorted (fun a b => le a b = true) (isort le l).
Proof.
  induction l as [|x l IH]; simpl; [constructor | apply insert_sorted, IH].
Qed.
End InsertionSortFacts.

(** Sorting commutes with a map that respects the order. *)
Lemma isort_map {A B : Type} (leA : A -> A -> bool) (leB : B -> B -> bool)
    (f : A -> B) (l : list A) :
  (forall x y, leB (f x) (f y) = leA x y) ->
  isort leB (map f l) = map f (isort leA l).
Proof.
  intros Hf. induction l as [|x l IH]; simpl; [reflexivity|].
  rewrite IH. generalize (isort leA l). intros s.
  induction s as [|y s IHs]; simpl; [reflexivity|].
  rewrite Hf. destruct (leA x y); simpl; [reflexivity | now rewrite IHs].
Qed.

(** ** The relabeling step *)

(** [before a b]: centroid row [a] ranks ahead of row [b], by crime count
    descending and, on equal crime counts, by cluster id ascending. *)
Definition before (a b : nat * centroid) : Prop :=
  (centre_crime_count (snd b) < centre_crime_count (snd a))%Q
  \/ (centre_crime_count (snd a) == centre_crime_count (snd b)
      /\ (fst a < fst b)%nat)%Q.

Lemma before_crime (a b : nat * centroid) :
  before a b -> (centre_crime_count (snd b) <= centre_crime_count (snd a))%Q.
Proof.
  intros [H|[H _]]; [apply Qlt_le_weak, H | rewrite H; apply Qle_refl].
Qed.

Lemma insert_before (x : nat * centroid) (l : list (nat * centroid)) :
  StronglySorted before l ->
  Forall (fun y => (fst x < fst y)%nat) l ->
  StronglySorted before
    (insert (fun a b => Qle_bool (centre_crime_count (snd b))
                                 (centre_crime_count (snd a))) x l).
Proof.
  induction 1 as [|y l Hs IH Hy]; intros Hx; simpl.
  - repeat constructor.
  - inversion Hx as [|? ? Hxy Hxl]; subst.
    destruct (Qle_bool _ _) eqn:E.
    + apply Qle_bool_iff in E.
      assert (Hb : before x y).
      { apply Qle_lt_or_eq in E. destruct E as [E|E]; [left; exact E|].
        right. split; [symmetry; exact E | exact Hxy]. }
      constructor; [constructor; assumption|].
      constructor; [exact Hb|].
      rewrite Forall_forall in *. intros z Hz.
      specialize (Hy z Hz). specialize (Hxl z Hz).
      apply before_crime in Hy.
      assert (Hle : (centre_crime_count (snd z) <= centre_crime_count (snd x))%Q)
        by (eapply Qle_trans; eassumption).
      apply Qle_lt_or_eq in Hle. destruct Hle as [Hle|Hle]; [left; exact Hle|].
      right. split; [symmetry; exact Hle | exact Hxl].
    + assert (Hlt : (centre_crime_count (snd x) < centre_crime_count (snd y))%Q).
      { apply Qnot_le_lt. intros Hle. apply Qle_bool_iff in Hle. congruence. }
      constructor; [apply IH; assumption|].
      rewrite Forall_forall in *. intros z Hz.
      apply (Permutation_in _ (insert_perm _ x l)) in Hz.
      destruct Hz as [<-|Hz]; [left; exact Hlt | auto].
Qed.

Lemma sort_values_desc_before_from (s : nat) (centroids : list centroid) :
  StronglySorted before
    (sort_values_desc (combine (seq s (List.length centroids)) centroids)).
Proof.
  revert s. induction centroids as [|c l IH]; intros s; simpl.
  - constructor.
  - apply insert_before; [apply IH|].
    rewrite Forall_forall. intros y Hy.
    apply isort_In in Hy. destruct y as [i d].
    apply in_combine_l in Hy. apply in_seq in Hy. simpl. lia.
Qed.

Lemma sort_values_desc_before (centroids : list centroid) :
  StronglySorted before (sort_values_desc (centroid_df centroids)).
Proof. apply sort_values_desc_before_from. Qed.

Lemma centroid_df_In_from (s i : nat) (c : centroid) (centroids : list centroid) :
  In (i, c) (combine (seq s (List.length centroids)) centroids)
  <-> (s <= i)%nat /\ nth_error centroids (i - s) = Some c.
Proof.
  revert s. induction centroids as [|d l IH]; intros s; simpl.
  - split; [tauto|]. intros [_ H]. destruct (i - s)%nat; discriminate.
  - rewrite IH. split.
    + intros [H|[H1 H2]].
      * inversion H; subst. rewrite Nat.sub_diag. split; [lia | reflexivity].
      * split; [lia|]. replace (i - s)%nat with (S (i - S s)) by lia. exact H2.
    + intros [H1 H2]. destruct (i - s)%nat as [|k] eqn:E.
      * left. simpl in H2. inversion H2. f_equal. lia.
      * right. split; [lia|]. simpl in H2.
        replace (i - S s)%nat with k by lia. exact H2.
Qed.

Lemma centroid_df_In (i : nat) (c : centroid) (centroids : list centroid) :
  In (i, c) (centroid_df centroids) <-> nth_error centroids i = Some c.
Proof.
  unfold centroid_df. rewrite centroid_df_In_from, Nat.sub_0_r.
  split; [tauto | split; [lia | assumption]].
Qed.

Lemma centroid_df_index (centroids : list centroid) :
  map fst (centroid_df centroids) = seq 0 (List.length centroids).
Proof.
  unfold centroid_df. generalize 0%nat.
  induction centroids as [|c l IH]; intros s; simpl; [reflexivity|].
  now rewrite IH.
Qed.

(** The crime level the relabeling gives to cluster [i]. *)
Definition crime_level_of (centroids : list centroid) (i : nat) : cell string :=
  match cluster_labels centroids with
  | Ok labels => dict_get labels i
  | Raise _ => None
  end.

Lemma sorted_centroids_three (centroids : list centroid) :
  List.length centroids = 3%nat ->
  exists a b c,
    sort_values_desc (centroid_df centroids) = [a; b; c]
    /\ Permutation [a; b; c] (centroid_df centroids)
    /\ before a b /\ before a c /\ before b c
    /\ Permutation [fst a; fst b; fst c] [0; 1; 2]%nat.
Proof.
  intros Hlen.
  pose proof (sort_values_desc_before centroids) as Hs.
  pose proof (isort_perm (fun a b => Qle_bool (centre_crime_count (snd b))
                                              (centre_crime_count (snd a)))
                         (centroid_df centroids)) as Hp.
  fold (sort_values_desc (centroid_df centroids)) in Hp.
  assert (Hl : List.length (sort_values_desc (centroid_df centroids)) = 3%nat).
  { rewrite (Permutation_length Hp). unfold centroid_df.
    rewrite length_combine, length_seq, Hlen. reflexivity. }
  destruct (sort_values_desc (centroid_df centroids)) as [|a [|b [|c [|d l]]]];
    try discriminate.
  exists a, b, c. split; [reflexivity|]. split; [exact Hp|].
  inversion Hs as [|? ? Hs1 Ha]; subst.
  inversion Hs1 as [|? ? Hs2 Hb]; subst.
  inversion Ha as [|? ? Hab Ha']; subst. inversion Ha' as [|? ? Hac _]; subst.
  inversion Hb as [|? ? Hbc _]; subst.
  repeat split; try assumption.
  apply (Permutation_map fst) in Hp. rewrite centroid_df_index, Hlen in Hp.
  exact Hp.
Qed.

Lemma cluster_labels_three (centroids : list centroid) (a b c : nat * centroid) :
  sort_values_desc (centroid_df centroids) = [a; b; c] ->
  cluster_labels centroids
  = Ok [(fst a, "High"%string); (fst b, "Moderate"%string); (fst c, "Low"%string)].
Proof. intros H. unfold cluster_labels. rewrite H. reflexivity. Qed.

Lemma three_ids_distinct (x y z : nat) :
  Permutation [x; y; z] [0; 1; 2]%nat -> x <> y /\ x <> z /\ y <> z.
Proof.
  intros H.
  assert (Hn : NoDup [x; y; z]).
  { eapply Permutation_NoDup; [apply Permutation_sym, H|].
    repeat constructor; simpl; intuition lia. }
  inversion Hn as [|? ? Hx Hn']; subst. inversion Hn' as [|? ? Hy _]; subst.
  simpl in *. intuition.
Qed.

(** C1. The relabeling sorts the three centroids by crime count, descending,
    and names them by rank: rank 0 is "High", rank 1 "Moderate", rank 2 "Low".
    The cluster whose centroid has the (strictly) highest crime count is
    "High" and the one with the (strictly) lowest is "Low", whatever their
    cluster ids; and a cluster named "High" ("Low") has a crime count no
    lower (no higher) than any other centroid. *)
Theorem relabel_ranks_by_crime_count (centroids : list centroid) :
  List.length centroids = 3%nat ->
  exists a b c,
    sort_values_desc (centroid_df centroids) = [a; b; c]
    /\ Permutation [a; b; c] (centroid_df centroids)
    /\ (centre_crime_count (snd b) <= centre_crime_count (snd a))%Q
    /\ (centre_crime_count (snd c) <= centre_crime_count (snd b))%Q
    /\ cluster_labels centroids
       = Ok [(fst a, "High"%string); (fst b, "Moderate"%string); (fst c, "Low"%string)]
    /\ (forall i ci, nth_error centroids i = Some ci ->
          (forall j cj, nth_error centroids j = Some cj -> j <> i ->
             (centre_crime_count cj < centre_crime_count ci)%Q) ->
          crime_level_of centroids i = Some "High"%string)
    /\ (forall i ci, nth_error centroids i = Some ci ->
          (forall j cj, nth_error centroids j = Some cj -> j <> i ->
             (centre_crime_count ci < centre_crime_count cj)%Q) ->
          crime_level_of centroids i = Some "Low"%string)
    /\ (forall i ci, nth_error centroids i = Some ci ->
          crime_level_of centroids i = Some "High"%string ->
          forall j cj, nth_error centroids j = Some cj ->
            (centre_crime_count cj <= centre_crime_count ci)%Q)
    /\ (forall i ci, nth_error centroids i = Some ci ->
          crime_level_of centroids i = Some "Low"%string ->
          forall j cj, nth_error centroids j = Some cj ->
            (centre_crime_count ci <= centre_crime_count cj)%Q).
Proof.
  intros Hlen.
  destruct (sorted_centroids_three centroids Hlen)
    as (a & b & c & Hs & Hp & Hab & Hac & Hbc & Hids).
  pose proof (cluster_labels_three _ _ _ _ Hs) as Hl.
  pose proof (three_ids_distinct _ _ _ Hids) as (Nab & Nac & Nbc).
  apply before_crime in Hab, Hac, Hbc.
  assert (Hmem : forall i ci, nth_error centroids i = Some ci ->
                   (i, ci) = a \/ (i, ci) = b \/ (i, ci) = c).
  { intros i ci H. apply centroid_df_In in H.
    apply (Permutation_in _ (Permutation_sym Hp)) in H. simpl in H.
    intuition congruence. }
  assert (Hnth : forall x, In x [a; b; c] -> nth_error centroids (fst x) = Some (snd x)).
  { intros x Hx. apply centroid_df_In. rewrite <- surjective_pairing.
    apply (Permutation_in _ Hp Hx). }
  pose proof (Hnth a (or_introl eq_refl)) as Ha.
  pose proof (Hnth b (or_intror (or_introl eq_refl))) as Hb.
  pose proof (Hnth c (or_intror (or_intror (or_introl eq_refl)))) as Hc.
  assert (Hget : forall i, crime_level_of centroids i =
            if (fst a =? i)%nat then Some "High"%string
            else if (fst b =? i)%nat then Some "Moderate"%string
            else if (fst c =? i)%nat then Some "Low"%string else None).
  { intros i. unfold crime_level_of. rewrite Hl. unfold dict_get. simpl.
    destruct (fst a =? i)%nat; [reflexivity|].
    destruct (fst b =? i)%nat; [reflexivity|].
    destruct (fst c =? i)%nat; reflexivity. }
  exists a, b, c. repeat split; try assumption.
  - intros i ci Hi Hmax. rewrite Hget.
    destruct (Hmem i ci Hi) as [E|[E|E]]; subst; simpl in *.
    + now rewrite Nat.eqb_refl.
    + specialize (Hmax _ _ Ha Nab). exfalso.
      apply (Qlt_not_le _ _ Hmax). exact Hab.
    + specialize (Hmax _ _ Ha Nac). exfalso.
      apply (Qlt_not_le _ _ Hmax). exact Hac.
  - intros i ci Hi Hmin. rewrite Hget.
    destruct (Hmem i ci Hi) as [E|[E|E]]; subst; simpl in *.
    + specialize (Hmin _ _ Hc (fun e => Nac (eq_sym e))). exfalso.
      apply (Qlt_not_le _ _ Hmin). exact Hac.
    + specialize (Hmin _ _ Hc (fun e => Nbc (eq_sym e))). exfalso.
      apply (Qlt_not_le _ _ Hmin). exact Hbc.
    + destruct (Nat.eqb_spec (fst a) i) as [E|_]; [contradiction|].
      destruct (Nat.eqb_spec (fst b) i) as [E|_]; [contradiction|].
      now rewrite Nat.eqb_refl.
  - intros i ci Hi Hhigh j cj Hj. rewrite Hget in Hhigh.
    destruct (Nat.eqb_spec (fst a) i) as [E|_].
    + subst i. rewrite Ha in Hi. inversion Hi; subst ci.
      destruct (Hmem j cj Hj) as [E|[E|E]]; subst; simpl;
        [apply Qle_refl | exact Hab | exact Hac].
    + destruct (fst b =? i)%nat; [discriminate|].
      destruct (fst c =? i)%nat; discriminate.
  - intros i ci Hi Hlow j cj Hj. rewrite Hget in Hlow.
    destruct (Nat.eqb_spec (fst a) i) as [E|_]; [discriminate|].
    destruct (Nat.eqb_spec (fst b) i) as [E|_]; [discriminate|].
    destruct (Nat.eqb_spec (fst c) i) as [E|_]; [|discriminate].
    subst i. rewrite Hc in Hi. inversion Hi; subst ci.
    destruct (Hmem j cj Hj) as [E|[E|E]]; subst; simpl;
      [exact Hac | exact Hbc | apply Qle_refl].
Qed.

(** The centroids of the scenario of the specification, with the busiest
    cluster in the middle. *)
Definition demo_centroids : list centroid :=
  [ mk_centroid 10 (1 # 5) (1 # 20);
    mk_centroid 100 (1 # 2) (1 # 10);
    mk_centroid 5 (1 # 10) (1 # 50) ].

Lemma relabel_ranks_by_crime_count_witness :
  List.length demo_centroids = 3%nat
  /\ crime_level_of demo_centroids 1 = Some "High"%string
  /\ crime_level_of demo_centroids 2 = Some "Low"%string.
Proof.
  split; [reflexivity|].
  destruct (relabel_ranks_by_crime_count demo_centroids eq_refl)
    as (a & b & c & _ & _ & _ & _ & _ & Hhigh & Hlow & _).
  split.
  - apply (Hhigh 1%nat (mk_centroid 100 (1 # 2) (1 # 10)) eq_refl).
    intros [|[|[|j]]] cj Hj Hne; simpl in Hj; inversion Hj; subst;
      try reflexivity; try congruence.
    destruct j; discriminate.
  - apply (Hlow 2%nat (mk_centroid 5 (1 # 10) (1 # 50)) eq_refl).
    intros [|[|[|j]]] cj Hj Hne; simpl in Hj; inversion Hj; subst;
      try reflexivity; try congruence.
    destruct j; discriminate.
Defined.

(** *** Tied centroids

    The script passes no sort kind and no second key to [sort_values], so
    which of two centroids with the same crime count comes first is up to
    the sort. [sorts_descending] is what the call promises whatever the
    kind; [cluster_labels_with] is the relabeling with the sort as a
    parameter, and [cluster_labels] is its instance at [sort_values_desc]. *)



Definition cluster_labels_with
    (sort : list (nat * centroid) -> list (nat * centroid))
    (centroids : list centroid) : result (list (nat * string)) :=
  let sorted_centroids := sort (centroid_df centroids) in
  if (List.length sorted_centroids =? List.length crime_levels)%nat
  then Ok (combine (map fst sorted_centroids) crime_levels)
  else Raise (ValueError "Length of values does not match length of index").


Lemma cluster_labels_with_default (centroids : list centroid) :
  cluster_labels_with sort_values_desc centroids = cluster_labels centroids.
Proof. reflexivity. Qed.









Lemma map_fst_combine {A B : Type} (l : list A) (l' : list B) :
  List.length l = List.length l' -> map fst (combine l l') = l.
Proof.
  revert l'. induction l as [|x l IH]; intros [|y l'] H; simpl in *;
    try discriminate; [reflexivity|].
  f_equal. apply IH. lia.
Qed.

Lemma map_snd_combine {A B : Type} (l : list A) (l' : list B) :
  List.length l = List.length l' -> map snd (combine l l') = l'.
Proof.
  revert l'. induction l as [|x l IH]; intros [|y l'] H; simpl in *;
    try discriminate; [reflexivity|].
  f_equal. apply IH. lia.
Qed.

(** C10. The mapping built from the sorted centroids sends the cluster ids
    0, 1, 2 one-to-one onto "High", "Moderate", "Low"; every community row,
    whose cluster id the estimator took from 0..2, gets a crime level that is
    not NaN; and the returned table keeps the index and the statistics and
    carries both the cluster id and the crime level. *)
Theorem relabel_bijection (kmeans : estimator)
    (community_data : Series community_row) (fit : KMeans_fit) :
  kmeans (map snd community_data) = Ok fit ->
  List.length (cluster_centers_ fit) = 3%nat ->
  List.length (labels_ fit) = List.length community_data ->
  Forall (fun l => (l < 3)%nat) (labels_ fit) ->
  exists labels table,
    cluster_labels (cluster_centers_ fit) = Ok labels
    /\ Permutation (map fst labels) [0; 1; 2]%nat
    /\ map snd labels = crime_levels
    /\ (forall i, (i < 3)%nat ->
          exists t, dict_get labels i = Some t /\ In t crime_levels)
    /\ (forall t, In t crime_levels ->
          exists i, (i < 3)%nat /\ dict_get labels i = Some t
                    /\ forall j, dict_get labels j = Some t -> j = i)
    /\ KMeans_clustering kmeans community_data = Ok table
    /\ map fst table = map fst community_data
    /\ map (fun r => stats (snd r)) table = map snd community_data
    /\ map (fun r => Cluster (snd r)) table = labels_ fit
    /\ Forall (fun r => exists t, Crime_Level (snd r) = Some t
                                  /\ In t crime_levels
                                  /\ dict_get labels (Cluster (snd r)) = Some t)
              table.
Proof.
  intros Hfit Hlen Hlab Hrange.
  destruct (sorted_centroids_three _ Hlen)
    as (a & b & c & Hs & Hp & _ & _ & _ & Hids).
  pose proof (cluster_labels_three _ _ _ _ Hs) as Hl.
  pose proof (three_ids_distinct _ _ _ Hids) as (Nab & Nac & Nbc).
  set (labels := [(fst a, "High"%string); (fst b, "Moderate"%string);
                  (fst c, "Low"%string)]) in *.
  assert (Hget : forall k, dict_get labels k =
            if (fst a =? k)%nat then Some "High"%string
            else if (fst b =? k)%nat then Some "Moderate"%string
            else if (fst c =? k)%nat then Some "Low"%string else None).
  { intros k. unfold dict_get, labels. simpl.
    destruct (fst a =? k)%nat; [reflexivity|].
    destruct (fst b =? k)%nat; [reflexivity|].
    destruct (fst c =? k)%nat; reflexivity. }
  assert (Hin : forall i, (i < 3)%nat -> i = fst a \/ i = fst b \/ i = fst c).
  { intros i Hi.
    assert (H : In i [0; 1; 2]%nat) by (simpl; lia).
    apply (Permutation_in _ (Permutation_sym Hids)) in H. simpl in H.
    intuition. }
  assert (Hlt : forall x, In x [fst a; fst b; fst c] -> (x < 3)%nat).
  { intros x Hx. apply (Permutation_in _ Hids) in Hx. simpl in Hx. lia. }
  assert (Htot : forall i, (i < 3)%nat ->
            exists t, dict_get labels i = Some t /\ In t crime_levels).
  { intros i Hi. rewrite Hget.
    destruct (Nat.eqb_spec (fst a) i); [eexists; split; [reflexivity | simpl; auto]|].
    destruct (Nat.eqb_spec (fst b) i); [eexists; split; [reflexivity | simpl; auto]|].
    destruct (Nat.eqb_spec (fst c) i); [eexists; split; [reflexivity | simpl; auto]|].
    destruct (Hin i Hi) as [E|[E|E]]; congruence. }
  set (table := map (fun r : Z * community_row * nat =>
                       (fst (fst r),
                        {| stats := snd (fst r);
                           Cluster := snd r;
                           Crime_Level := dict_get labels (snd r) |}))
                    (combine community_data (labels_ fit))).
  exists labels, table.
  split; [exact Hl|]. split; [exact Hids|]. split; [reflexivity|].
  split; [exact Htot|]. split.
  { intros t [<-|[<-|[<-|[]]]].
    - exists (fst a). split; [apply Hlt; simpl; auto|].
      split; [rewrite Hget, Nat.eqb_refl; reflexivity|].
      intros j. rewrite Hget.
      destruct (Nat.eqb_spec (fst a) j); [congruence|].
      destruct (fst b =? j)%nat; [discriminate|].
      destruct (fst c =? j)%nat; discriminate.
    - exists (fst b). split; [apply Hlt; simpl; auto|].
      split.
      + rewrite Hget, Nat.eqb_refl.
        destruct (Nat.eqb_spec (fst a) (fst b)); [contradiction | reflexivity].
      + intros j. rewrite Hget.
        destruct (fst a =? j)%nat; [discriminate|].
        destruct (Nat.eqb_spec (fst b) j); [congruence|].
        destruct (fst c =? j)%nat; discriminate.
    - exists (fst c). split; [apply Hlt; simpl; auto|].
      split.
      + rewrite Hget, Nat.eqb_refl.
        destruct (Nat.eqb_spec (fst a) (fst c)); [contradiction|].
        destruct (Nat.eqb_spec (fst b) (fst c)); [contradiction | reflexivity].
      + intros j. rewrite Hget.
        destruct (fst a =? j)%nat; [discriminate|].
        destruct (fst b =? j)%nat; [discriminate|].
        destruct (Nat.eqb_spec (fst c) j); [congruence | discriminate]. }
  split.
  { unfold KMeans_clustering. rewrite Hfit. simpl.
    rewrite Hlab, Nat.eqb_refl. simpl. rewrite Hl. reflexivity. }
  assert (Hc1 : map fst (combine community_data (labels_ fit)) = community_data)
    by (apply map_fst_combine; lia).
  assert (Hc2 : map snd (combine community_data (labels_ fit)) = labels_ fit)
    by (apply map_snd_combine; lia).
  split.
  { unfold table. rewrite map_map. simpl.
    rewrite <- Hc1 at 2. rewrite map_map. reflexivity. }
  split.
  { unfold table. rewrite map_map. simpl.
    rewrite <- Hc1 at 2. rewrite map_map. reflexivity. }
  split.
  { unfold table. rewrite map_map. simpl. exact Hc2. }
  unfold table. rewrite Forall_forall. intros r Hr.
  apply in_map_iff in Hr. destruct Hr as (x & <- & Hx). simpl.
  destruct x as [kr l]. apply in_combine_r in Hx. simpl.
  rewrite Forall_forall in Hrange.
  destruct (Htot l (Hrange l Hx)) as (t & Ht & Hin').
  exists t. auto.
Qed.

(** The three-area scenario: each area is a cluster of its own, so the
    centres are the rows. [demo_estimator] stands for a fitted KMeans on it. *)
Definition demo_community_data : Series community_row :=
  [ (1, mk_community_row (Some 100%nat) (Some (1 # 2)) (Some (1 # 10)));
    (2, mk_community_row (Some 10%nat) (Some (1 # 5)) (Some (1 # 20)));
    (3, mk_community_row (Some 5%nat) (Some (1 # 10)) (Some (1 # 50))) ].

Definition demo_fit : KMeans_fit :=
  {| labels_ := [1; 0; 2]%nat; cluster_centers_ := demo_centroids |}.

Definition demo_estimator : estimator := fun _ => Ok demo_fit.

Lemma relabel_bijection_witness :
  exists labels table,
    cluster_labels demo_centroids = Ok labels
    /\ Permutation (map fst labels) [0; 1; 2]%nat
    /\ map snd labels = crime_levels
    /\ KMeans_clustering demo_estimator demo_community_data = Ok table
    /\ map (fun r => Cluster (snd r)) table = [1; 0; 2]%nat.
Proof.
  destruct (relabel_bijection demo_estimator demo_community_data demo_fit
              eq_refl eq_refl eq_refl)
    as (labels & table & H1 & H2 & H3 & _ & _ & H4 & _ & _ & H5 & _).
  - repeat constructor.
  - exists labels, table. repeat split; assumption.
Defined.

(** ** The join *)

Definition matches (community_data : Series labelled_row) (r : census_row)
  : list (Z * labelled_row) :=
  filter (fun l => key_eqb (fst l) (Community_Area_Number r)) community_data.

Lemma key_eqb_true (k : Z) (c : cell Z) : key_eqb k c = true <-> c = Some k.
Proof.
  destruct c as [k'|]; simpl.
  - rewrite Z.eqb_eq. split; congruence.
  - split; discriminate.
Qed.

Lemma merge_right_In (community_data : Series labelled_row)
    (df_census : list census_row) (m : merged_row) :
  In m (merge_right community_data df_census) <->
  exists r, In r df_census
    /\ ((matches community_data r = [] /\ m = {| left := None; right := r |})
        \/ exists l, In l (matches community_data r)
                     /\ m = {| left := Some l; right := r |}).
Proof.
  unfold merge_right. rewrite in_flat_map.
  split; intros (r & Hr & H); exists r; (split; [exact Hr|]);
    fold (matches community_data r) in *.
  - destruct (matches community_data r) as [|l0 ms] eqn:E.
    + left. simpl in H. intuition.
    + right. apply in_map_iff in H. destruct H as (l & <- & Hl). eauto.
  - destruct H as [[E ->]|(l & Hl & ->)].
    + rewrite E. simpl. auto.
    + destruct (matches community_data r) as [|l0 ms] eqn:E; [destruct Hl|].
      apply in_map_iff. eauto.
Qed.

Lemma matches_In (community_data : Series labelled_row) (r : census_row)
    (l : Z * labelled_row) :
  In l (matches community_data r)
  <-> In l community_data /\ Community_Area_Number r = Some (fst l).
Proof. unfold matches. rewrite filter_In, key_eqb_true. reflexivity. Qed.

(** C3. The right join keeps every census record, with an all-NaN community
    part where no community row has its key; after [dropna] the table holds
    exactly the pairs of a community row and a census row with the same key
    and no NaN. So every key of the final table is a key of both inputs, and
    a census record whose area has no community row is not in it. *)
Theorem join_keeps_areas_of_both (community_data : Series labelled_row)
    (df_census : list census_row) :
  (forall r, In r df_census ->
     exists m, In m (merge_right community_data df_census) /\ right m = r)
  /\ (forall r, In r df_census ->
        (forall l, In l community_data ->
           Community_Area_Number r <> Some (fst l)) ->
        In {| left := None; right := r |}
           (merge_right community_data df_census))
  /\ (forall m, In m (dropna (merge_right community_data df_census)) <->
        exists l r,
          m = {| left := Some l; right := r |}
          /\ In l community_data /\ In r df_census
          /\ Community_Area_Number r = Some (fst l)
          /\ left_complete (Some l) = true /\ right_complete r = true)
  /\ (forall m, In m (dropna (merge_right community_data df_census)) ->
        exists k, Community_Area_Number (right m) = Some k
                  /\ In k (index community_data)
                  /\ In (Some k) (map Community_Area_Number df_census))
  /\ (forall r k, In r df_census -> Community_Area_Number r = Some k ->
        ~ In k (index community_data) ->
        forall m, In m (dropna (merge_right community_data df_census)) ->
                  right m <> r).
Proof.
  assert (Hiff : forall m, In m (dropna (merge_right community_data df_census)) <->
        exists l r,
          m = {| left := Some l; right := r |}
          /\ In l community_data /\ In r df_census
          /\ Community_Area_Number r = Some (fst l)
          /\ left_complete (Some l) = true /\ right_complete r = true).
  { intros m. unfold dropna. rewrite filter_In, merge_right_In, andb_true_iff.
    split.
    - intros [(r & Hr & [[_ ->]|(l & Hl & ->)]) [Hc1 Hc2]]; simpl in *.
      + discriminate.
      + apply matches_In in Hl. exists l, r. tauto.
    - intros (l & r & -> & Hl & Hr & Hk & Hc1 & Hc2). simpl.
      split; [|tauto]. exists r. split; [exact Hr|]. right.
      exists l. split; [apply matches_In; tauto | reflexivity]. }
  split; [|split; [|split; [exact Hiff|split]]].
  - intros r Hr. destruct (matches community_data r) as [|l ms] eqn:E.
    + exists {| left := None; right := r |}. split; [|reflexivity].
      apply merge_right_In. exists r. auto.
    + exists {| left := Some l; right := r |}. split; [|reflexivity].
      apply merge_right_In. exists r. split; [exact Hr|]. right.
      exists l. rewrite E. simpl. auto.
  - intros r Hr Hno. apply merge_right_In. exists r. split; [exact Hr|]. left.
    split; [|reflexivity].
    destruct (matches community_data r) as [|l ms] eqn:E; [reflexivity|].
    assert (Hl : In l (matches community_data r)) by (rewrite E; simpl; auto).
    apply matches_In in Hl. destruct Hl as [Hl Hk]. destruct (Hno l Hl Hk).
  - intros m Hm. apply Hiff in Hm.
    destruct Hm as (l & r & -> & Hl & Hr & Hk & _). simpl.
    exists (fst l). split; [exact Hk|]. split.
    + unfold index. apply in_map. exact Hl.
    + rewrite <- Hk. apply in_map. exact Hr.
  - intros r k Hr Hk Hno m Hm E. apply Hiff in Hm.
    destruct Hm as (l & r' & -> & Hl & _ & Hk' & _). simpl in E. subst r'.
    apply Hno. rewrite Hk in Hk'. inversion Hk'; subst.
    unfold index. apply in_map. exact Hl.
Qed.

(** ** Normalisation *)

Lemma fold_min_spec (qs : list Q) (q : Q) :
  let m := fold_left Qmin qs q in
  (m <= q)%Q /\ Forall (fun x => (m <= x)%Q) qs /\ In m (q :: qs).
Proof.
  revert q. induction qs as [|y qs IH]; intros q; simpl.
  - split; [apply Qle_refl|]. split; [constructor | auto].
  - destruct (IH (Qmin q y)) as (H1 & H2 & H3).
    split; [eapply Qle_trans; [exact H1 | apply Q.le_min_l]|].
    split.
    + constructor; [eapply Qle_trans; [exact H1 | apply Q.le_min_r] | exact H2].
    + destruct H3 as [H3|H3]; [|auto].
      rewrite <- H3. unfold Qmin, GenericMinMax.gmin.
      destruct (q ?= y)%Q; auto.
Qed.

Lemma fold_max_spec (qs : list Q) (q : Q) :
  let m := fold_left Qmax qs q in
  (q <= m)%Q /\ Forall (fun x => (x <= m)%Q) qs /\ In m (q :: qs).
Proof.
  revert q. induction qs as [|y qs IH]; intros q; simpl.
  - split; [apply Qle_refl|]. split; [constructor | auto].
  - destruct (IH (Qmax q y)) as (H1 & H2 & H3).
    split; [eapply Qle_trans; [apply Q.le_max_l | exact H1]|].
    split.
    + constructor; [eapply Qle_trans; [apply Q.le_max_r | exact H1] | exact H2].
    + destruct H3 as [H3|H3]; [|auto].
      rewrite <- H3. unfold Qmax, GenericMinMax.gmax.
      destruct (q ?= y)%Q; auto.
Qed.

Lemma present_In (col : list (cell Q)) (x : Q) :
  In x (present col) <-> In (Some x) col.
Proof.
  unfold present. rewrite in_flat_map. split.
  - intros ([y|] & Hy & H); simpl in H; [|tauto].
    destruct H as [<-|[]]. exact Hy.
  - intros H. exists (Some x). simpl. auto.
Qed.

(** [col_min] is the least value of the column, [col_max] the greatest. *)
Lemma col_min_spec (col : list (cell Q)) (mn : Q) :
  col_min col = Some mn ->
  In (Some mn) col /\ forall x, In (Some x) col -> (mn <= x)%Q.
Proof.
  unfold col_min. intros H.
  destruct (present col) as [|q qs] eqn:E; [discriminate|].
  injection H as <-. destruct (fold_min_spec qs q) as (H1 & H2 & H3).
  rewrite <- E in H3. split.
  - apply present_In, H3.
  - intros x Hx. apply present_In in Hx. rewrite E in Hx.
    destruct Hx as [<-|Hx]; [exact H1|].
    rewrite Forall_forall in H2. auto.
Qed.

Lemma col_max_spec (col : list (cell Q)) (mx : Q) :
  col_max col = Some mx ->
  In (Some mx) col /\ forall x, In (Some x) col -> (x <= mx)%Q.
Proof.
  unfold col_max. intros H.
  destruct (present col) as [|q qs] eqn:E; [discriminate|].
  injection H as <-. destruct (fold_max_spec qs q) as (H1 & H2 & H3).
  rewrite <- E in H3. split.
  - apply present_In, H3.
  - intros x Hx. apply present_In in Hx. rewrite E in Hx.
    destruct Hx as [<-|Hx]; [exact H1|].
    rewrite Forall_forall in H2. auto.
Qed.

Lemma col_min_some (col : list (cell Q)) (x : Q) :
  In (Some x) col -> exists mn, col_min col = Some mn.
Proof.
  intros H. apply present_In in H. unfold col_min.
  destruct (present col); [destruct H | eauto].
Qed.

Lemma col_max_some (col : list (cell Q)) (x : Q) :
  In (Some x) col -> exists mx, col_max col = Some mx.
Proof.
  intros H. apply present_In in H. unfold col_max.
  destruct (present col); [destruct H | eauto].
Qed.

(** The normalised cell of row [r] in column [c] of the table [df]. *)
Definition normalized_cell (df : list indicators) (r : indicators)
    (c : indicator_name) : cell Q :=
  fdiv (fsub (r c) (col_min (column df c)))
       (fsub (col_max (column df c)) (col_min (column df c))).

Lemma normalize_df_rows (df : list indicators) :
  normalize_df df = map (normalized_cell df) df.
Proof. reflexivity. Qed.

Lemma normalize_df_nth (df : list indicators) (i : nat) :
  nth_error (normalize_df df) i = option_map (normalized_cell df) (nth_error df i).
Proof. rewrite normalize_df_rows. apply nth_error_map. Qed.

(** Whenever [normalize_df] divides by zero, the numerator is zero as well:
    the division is a [0/0]. *)
Lemma normalize_df_num_zero (df : list indicators) (r : indicators)
    (c : indicator_name) (x mn mx : Q) :
  In r df -> r c = Some x ->
  col_min (column df c) = Some mn -> col_max (column df c) = Some mx ->
  (mx - mn == 0)%Q -> (x - mn == 0)%Q.
Proof.
  intros Hr Hx Hmn Hmx Hz.
  assert (Hin : In (Some x) (column df c)).
  { unfold column. rewrite <- Hx. apply (in_map (fun r => r c)), Hr. }
  apply col_min_spec in Hmn. apply col_max_spec in Hmx.
  pose proof (proj2 Hmn x Hin). pose proof (proj2 Hmx x Hin). lra.
Qed.

(** C4 (amended). In [logistic_regression] each indicator column of the
    joined table is normalised with that column's own least and greatest
    value in the joined table: on a column that is not constant the cell [x]
    becomes [(x - min) / (max - min)], which lies in [0, 1], is 0 at the
    minimum, 1 at the maximum, and 1/2 for 30 between 10 and 50. *)
Theorem normalize_min_max (merged_df : list merged_row) (i : nat)
    (m : merged_row) (c : indicator_name) (x mn mx : Q) :
  nth_error merged_df i = Some m ->
  indicator (right m) c = Some x ->
  col_min (column (independent_of merged_df) c) = Some mn ->
  col_max (column (independent_of merged_df) c) = Some mx ->
  ~ (mn == mx)%Q ->
  exists r v,
    nth_error (normalize_df (independent_of merged_df)) i = Some r
    /\ r c = Some v
    /\ (v == (x - mn) / (mx - mn))%Q
    /\ (0 <= v)%Q /\ (v <= 1)%Q
    /\ ((x == mn)%Q -> (v == 0)%Q)
    /\ ((x == mx)%Q -> (v == 1)%Q)
    /\ ((mn == 10)%Q -> (mx == 50)%Q -> (x == 30)%Q -> (v == 1 # 2)%Q).
Proof.
  intros Hm Hx Hmn Hmx Hne.
  assert (Hrow : nth_error (independent_of merged_df) i = Some (indicator (right m))).
  { unfold independent_of. apply (map_nth_error (fun m => indicator (right m))), Hm. }
  assert (Hin : In (Some x) (column (independent_of merged_df) c)).
  { unfold column. rewrite <- Hx.
    apply (in_map (fun r : indicators => r c)). eapply nth_error_In, Hrow. }
  pose proof (proj2 (col_min_spec _ _ Hmn) x Hin) as Hlo.
  pose proof (proj2 (col_max_spec _ _ Hmx) x Hin) as Hhi.
  assert (Hlt : (mn < mx)%Q).
  { apply Qle_lt_or_eq in Hlo. apply Qle_lt_or_eq in Hhi.
    destruct Hlo as [Hlo|Hlo], Hhi as [Hhi|Hhi]; lra. }
  assert (Hden : Qeq_bool (mx - mn) 0 = false).
  { destruct (Qeq_bool (mx - mn) 0) eqn:E; [|reflexivity].
    apply Qeq_bool_iff in E. lra. }
  exists (normalized_cell (independent_of merged_df) (indicator (right m))),
         ((x - mn) / (mx - mn))%Q.
  split; [rewrite normalize_df_nth, Hrow; reflexivity|].
  split; [unfold normalized_cell; rewrite Hx, Hmn, Hmx; simpl; rewrite Hden; reflexivity|].
  split; [reflexivity|].
  split; [apply Qle_shift_div_l; lra|].
  split; [apply Qle_shift_div_r; lra|].
  split; [intros E; rewrite E; field; lra|].
  split; [intros E; rewrite E; field; lra|].
  intros E1 E2 E3. rewrite E1, E2, E3. reflexivity.
Qed.

Definition level_row (n : nat) (cluster : nat) (level : string) : labelled_row :=
  {| stats := mk_community_row (Some n) (Some (1 # 2)) (Some (1 # 4));
     Cluster := cluster;
     Crime_Level := Some level |}.

Definition census_of (area : Z) (hardship : Q) : census_row :=
  {| Community_Area_Number := Some area;
     COMMUNITY_AREA_NAME := Some "area"%string;
     indicator := fun c => match c with
                           | HARDSHIP_INDEX => Some hardship
                           | _ => Some (hardship / 2)%Q
                           end;
     PER_CAPITA_INCOME := Some 20000%Q |}.

(** Three areas with crimes; the census knows them and a fourth one, whose
    hardship index (90) is the greatest of the census table. *)
Definition demo_labelled : Series labelled_row :=
  [ (1, level_row 100 1 "High"); (2, level_row 10 0 "Moderate");
    (3, level_row 5 2 "Low") ].

Definition demo_census : list census_row :=
  [ census_of 1 10; census_of 2 30; census_of 3 50; census_of 4 90 ].

Definition demo_merged : list merged_row :=
  dropna (merge_right demo_labelled demo_census).

Lemma normalize_min_max_witness :
  col_max (column (map indicator demo_census) HARDSHIP_INDEX) = Some 90%Q
  /\ col_max (column (independent_of demo_merged) HARDSHIP_INDEX) = Some 50%Q
  /\ exists r v,
       nth_error (normalize_df (independent_of demo_merged)) 1 = Some r
       /\ r HARDSHIP_INDEX = Some v /\ (v == 1 # 2)%Q.
Proof.
  split; [reflexivity|]. split; [reflexivity|].
  destruct (normalize_min_max demo_merged 1
              {| left := Some (2, level_row 10 0 "Moderate");
                 right := census_of 2 30 |}
              HARDSHIP_INDEX 30 10 50 eq_refl eq_refl eq_refl eq_refl)
    as (r & v & H1 & H2 & _ & _ & _ & _ & _ & H3).
  - intros E. discriminate E.
  - exists r, v. split; [exact H1|]. split; [exact H2|].
    apply H3; reflexivity.
Defined.

(** A joined table of two rows whose hardship index is 7 in both. *)
Definition constant_df : list indicators :=
  [ fun c => match c with HARDSHIP_INDEX => Some 7%Q | _ => Some 1%Q end;
    fun c => match c with HARDSHIP_INDEX => Some 7%Q | _ => Some 3%Q end ].

(** C4 as stated fails on a constant column: 7 is the minimum and the maximum
    of the column, and it normalises to NaN, neither to 0 nor to 1. *)
Lemma normalize_constant_column_counterexample :
  col_min (column constant_df HARDSHIP_INDEX) = Some 7%Q
  /\ col_max (column constant_df HARDSHIP_INDEX) = Some 7%Q
  /\ column constant_df HARDSHIP_INDEX = [Some 7%Q; Some 7%Q]
  /\ column (normalize_df constant_df) HARDSHIP_INDEX = [None; None].
Proof. repeat split. Qed.

(** ** The split *)

Lemma iloc_In {A : Type} (X : list A) (idx : list nat) (rows : list A) :
  iloc X idx = Ok rows -> forall x, In x rows -> In x X.
Proof.
  revert rows. induction idx as [|i idx IH]; intros rows H x Hx; simpl in H.
  - inversion H; subst. destruct Hx.
  - destruct (nth_error X i) as [a|] eqn:E; [|discriminate].
    destruct (iloc X idx) as [rest|e]; simpl in H; [|discriminate].
    inversion H; subst. destruct Hx as [<-|Hx].
    + eapply nth_error_In, E.
    + eapply IH; [reflexivity | exact Hx].
Qed.

Lemma iloc_ok {A : Type} (X : list A) (idx : list nat) :
  Forall (fun i => (i < List.length X)%nat) idx ->
  exists rows, iloc X idx = Ok rows /\ List.length rows = List.length idx.
Proof.
  induction 1 as [|i idx Hi _ IH]; simpl.
  - exists []. auto.
  - destruct IH as (rest & -> & Hlen).
    destruct (nth_error X i) as [a|] eqn:E.
    + exists (a :: rest). simpl. auto.
    + apply nth_error_None in E. lia.
Qed.

Lemma firstn_In {A : Type} (n : nat) (l : list A) (x : A) :
  In x (firstn n l) -> In x l.
Proof.
  intros H. rewrite <- (firstn_skipn n l). apply in_or_app. auto.
Qed.

Lemma skipn_In {A : Type} (n : nat) (l : list A) (x : A) :
  In x (skipn n l) -> In x l.
Proof.
  intros H. rewrite <- (firstn_skipn n l). apply in_or_app. auto.
Qed.

Lemma n_test_of_lt (n : nat) : (2 <= n)%nat -> (0 < n_test_of n < n)%nat.
Proof.
  intros H. unfold n_test_of.
  pose proof (Nat.div_mod_eq (n + 4) 5) as E.
  pose proof (Nat.mod_upper_bound (n + 4) 5). lia.
Qed.

Section SplitFacts.
Variable permutation : nat -> list nat.

Lemma train_test_split_small {A B : Type} (X : list A) (y : list B) :
  List.length y = List.length X -> (List.length X < 2)%nat ->
  train_test_split permutation X y
  = Raise (ValueError "the resulting train set will be empty").
Proof.
  intros Hy Hn. unfold train_test_split. rewrite Hy, Nat.eqb_refl. simpl.
  destruct (List.length X) as [|[|n]]; [reflexivity | reflexivity | lia].
Qed.

Lemma train_test_split_ok {A B : Type} (X : list A) (y : list B) :
  List.length y = List.length X -> (2 <= List.length X)%nat ->
  Permutation (permutation (List.length X)) (seq 0 (List.length X)) ->
  exists s,
    train_test_split permutation X y = Ok s
    /\ List.length (X_test s) = n_test_of (List.length X)
    /\ List.length (y_test s) = n_test_of (List.length X)
    /\ List.length (X_train s) = (List.length X - n_test_of (List.length X))%nat
    /\ List.length (y_train s) = (List.length X - n_test_of (List.length X))%nat
    /\ (forall x, In x (X_train s ++ X_test s) -> In x X).
Proof.
  intros Hy Hn Hp. unfold train_test_split. rewrite Hy, Nat.eqb_refl. simpl.
  pose proof (n_test_of_lt _ Hn) as Ht.
  set (n := List.length X) in *. set (k := n_test_of n) in *.
  destruct (Nat.eqb_spec (n - k) 0) as [E|_]; [lia|].
  assert (Hlen : List.length (permutation n) = n).
  { rewrite (Permutation_length Hp). apply length_seq. }
  assert (Hall : Forall (fun i => (i < n)%nat) (permutation n)).
  { rewrite Forall_forall. intros i Hi.
    apply (Permutation_in _ Hp) in Hi. apply in_seq in Hi. lia. }
  assert (Hte : Forall (fun i => (i < n)%nat) (firstn k (permutation n))).
  { rewrite Forall_forall in *. intros i Hi. apply Hall.
    eapply firstn_In, Hi. }
  assert (Htr : Forall (fun i => (i < n)%nat)
                       (firstn (n - k) (skipn k (permutation n)))).
  { rewrite Forall_forall in *. intros i Hi. apply Hall.
    eapply skipn_In, firstn_In, Hi. }
  assert (Lte : List.length (firstn k (permutation n)) = k).
  { rewrite length_firstn. lia. }
  assert (Ltr : List.length (firstn (n - k) (skipn k (permutation n))) = (n - k)%nat).
  { rewrite length_firstn, length_skipn. lia. }
  destruct (iloc_ok X _ Htr) as (Xtr & E1 & L1).
  destruct (iloc_ok X _ Hte) as (Xte & E2 & L2).
  assert (Htr' : Forall (fun i => (i < List.length y)%nat)
                        (firstn (n - k) (skipn k (permutation n))))
    by (rewrite Hy; exact Htr).
  assert (Hte' : Forall (fun i => (i < List.length y)%nat)
                        (firstn k (permutation n)))
    by (rewrite Hy; exact Hte).
  destruct (iloc_ok y _ Htr') as (ytr & E3 & L3).
  destruct (iloc_ok y _ Hte') as (yte & E4 & L4).
  rewrite E1, E2, E3, E4. simpl.
  eexists. split; [reflexivity|]. simpl.
  split; [rewrite L2; exact Lte|]. split; [rewrite L4; exact Lte|].
  split; [rewrite L1; exact Ltr|]. split; [rewrite L3; exact Ltr|].
  intros x Hx. apply in_app_or in Hx.
  destruct Hx as [Hx|Hx];
    [exact (iloc_In _ _ _ E1 x Hx) | exact (iloc_In _ _ _ E2 x Hx)].
Qed.
End SplitFacts.

Lemma train_test_split_rows {A B : Type} (permutation : nat -> list nat)
    (X : list A) (y : list B) (s : split A B) :
  train_test_split permutation X y = Ok s ->
  forall x, In x (X_train s ++ X_test s) -> In x X.
Proof.
  unfold train_test_split. intros H x Hx.
  destruct (negb _); [discriminate|].
  destruct (_ =? 0)%nat; [discriminate|].
  destruct (iloc X (firstn _ (skipn _ _))) as [Xtr|] eqn:E1; [|discriminate].
  destruct (iloc X (firstn _ (permutation _))) as [Xte|] eqn:E2; [|discriminate].
  simpl in H.
  destruct (iloc y _) as [ytr|]; [|discriminate]. simpl in H.
  destruct (iloc y _) as [yte|]; [|discriminate]. simpl in H.
  inversion H; subst. simpl in Hx. apply in_app_or in Hx.
  destruct Hx as [Hx|Hx];
    [exact (iloc_In _ _ _ E1 x Hx) | exact (iloc_In _ _ _ E2 x Hx)].
Qed.

Lemma constant_column_cell (df : list indicators) (c : indicator_name) (v : Q)
    (r : indicators) :
  (forall r', In r' df -> exists x, r' c = Some x /\ (x == v)%Q) ->
  In r df -> normalized_cell df r c = None.
Proof.
  intros Hconst Hr.
  destruct (Hconst r Hr) as (x & Hx & Hxv).
  assert (Hin : In (Some x) (column df c)).
  { unfold column. rewrite <- Hx. apply (in_map (fun r => r c)), Hr. }
  assert (Hall : forall y, In (Some y) (column df c) -> (y == v)%Q).
  { intros y Hy. unfold column in Hy. apply in_map_iff in Hy.
    destruct Hy as (r' & Hy & Hr'). destruct (Hconst r' Hr') as (x' & Hx' & E).
    rewrite Hx' in Hy. inversion Hy; subst. exact E. }
  destruct (col_min_some _ _ Hin) as (mn & Hmn).
  destruct (col_max_some _ _ Hin) as (mx & Hmx).
  pose proof (Hall _ (proj1 (col_min_spec _ _ Hmn))) as E1.
  pose proof (Hall _ (proj1 (col_max_spec _ _ Hmx))) as E2.
  unfold normalized_cell. rewrite Hx, Hmn, Hmx. simpl.
  assert (Hz : Qeq_bool (mx - mn) 0 = true) by (apply Qeq_bool_iff; lra).
  rewrite Hz. reflexivity.
Qed.

(** C8 (amended). [normalize_df] has no case for a constant column: it
    raises nothing and fills nothing in. Every cell of a column whose values
    are all equal comes out as NaN (the [0/0]), and these rows are what
    [train_test_split] hands to the classifier. *)
Theorem constant_column_becomes_nan (permutation : nat -> list nat)
    (merged_df : list merged_row) (c : indicator_name) (v : Q) :
  (forall m, In m merged_df ->
     exists x, indicator (right m) c = Some x /\ (x == v)%Q) ->
  column (normalize_df (independent_of merged_df)) c
  = map (fun _ => None) merged_df
  /\ forall s,
       train_test_split permutation (normalize_df (independent_of merged_df))
                        (cluster_column merged_df) = Ok s ->
       forall r, In r (X_train s ++ X_test s) -> r c = None.
Proof.
  intros Hconst.
  assert (Hdf : forall r', In r' (independent_of merged_df) ->
                  exists x, r' c = Some x /\ (x == v)%Q).
  { intros r' Hr'. unfold independent_of in Hr'. apply in_map_iff in Hr'.
    destruct Hr' as (m & <- & Hm). apply Hconst, Hm. }
  split.
  - unfold column. rewrite normalize_df_rows, map_map.
    unfold independent_of at 2. rewrite map_map.
    apply map_ext_in. intros m Hm.
    apply (constant_column_cell _ _ v); [exact Hdf|].
    unfold independent_of. apply (in_map (fun m => indicator (right m))), Hm.
  - intros s Hs r Hr.
    apply (train_test_split_rows _ _ _ _ Hs) in Hr.
    rewrite normalize_df_rows in Hr. apply in_map_iff in Hr.
    destruct Hr as (r0 & <- & Hr0).
    apply (constant_column_cell _ _ v); assumption.
Qed.

(** Three joined areas with the same indicators. *)
Definition flat_merged : list merged_row :=
  dropna (merge_right demo_labelled
            [census_of 1 20; census_of 2 20; census_of 3 20]).

Lemma constant_column_becomes_nan_witness :
  column (independent_of flat_merged) HARDSHIP_INDEX
  = [Some 20%Q; Some 20%Q; Some 20%Q]
  /\ column (normalize_df (independent_of flat_merged)) HARDSHIP_INDEX
     = [None; None; None].
Proof.
  split; [reflexivity|].
  refine (proj1 (constant_column_becomes_nan (seq 0) flat_merged
                   HARDSHIP_INDEX 20 _)).
  intros m [<-|[<-|[<-|[]]]]; exists 20%Q; split; reflexivity.
Defined.

(** C8 as stated fails: on a table whose poverty column is 10 in every row
    [normalize_df] returns a table and its poverty cells are NaN, not 0. *)
Lemma normalize_degenerate_counterexample :
  column (independent_of flat_merged) PERCENT_HOUSEHOLDS_BELOW_POVERTY
  = [Some (20 / 2)%Q; Some (20 / 2)%Q; Some (20 / 2)%Q]
  /\ map (fun r => r PERCENT_HOUSEHOLDS_BELOW_POVERTY)
         (normalize_df (independent_of flat_merged))
     = [None; None; None]
  /\ None <> Some 0%Q.
Proof. repeat split. discriminate. Qed.

(** C9 (amended). The evaluation step has no check of its own on the size
    or the classes of the test part. [train_test_split] refuses a joined
    table of fewer than two rows (ValueError, empty training part), and that
    is the only failure the step adds. From two rows on the split succeeds
    with [ceil(n/5)] test rows and the rest for training, whatever their
    classes; up to ten rows that is fewer than three test rows, so not one
    per class. The step then ends as the classifier does: with the
    evaluation when [fit] and [predict] return, with the classifier's own
    error when they raise. *)
Theorem split_ignores_classes (permutation : nat -> list nat)
    (fit_predict : list indicators -> list (cell nat) -> list indicators ->
                   result (list nat))
    (merged_df : list merged_row) :
  Permutation (permutation (List.length merged_df))
              (seq 0 (List.length merged_df)) ->
  ((List.length merged_df < 2)%nat ->
     logistic_regression permutation fit_predict merged_df
     = Raise (ValueError "the resulting train set will be empty"))
  /\ ((2 <= List.length merged_df)%nat ->
        exists s,
          train_test_split permutation
            (normalize_df (independent_of merged_df))
            (cluster_column merged_df) = Ok s
          /\ List.length (y_test s) = n_test_of (List.length merged_df)
          /\ List.length (X_test s) = n_test_of (List.length merged_df)
          /\ List.length (y_train s)
             = (List.length merged_df - n_test_of (List.length merged_df))%nat
          /\ logistic_regression permutation fit_predict merged_df
             = (y_pred <- fit_predict (X_train s) (y_train s) (X_test s) ;;
                Ok (mk_evaluation (X_train s) (y_test s) y_pred))
          /\ ((List.length merged_df <= 10)%nat ->
              (List.length (y_test s) < 3)%nat)
          /\ (forall y_pred,
                fit_predict (X_train s) (y_train s) (X_test s) = Ok y_pred ->
                logistic_regression permutation fit_predict merged_df
                = Ok (mk_evaluation (X_train s) (y_test s) y_pred))
          /\ (forall e,
                fit_predict (X_train s) (y_train s) (X_test s) = Raise e ->
                logistic_regression permutation fit_predict merged_df
                = Raise e)).
Proof.
  intros Hp.
  assert (LX : List.length (normalize_df (independent_of merged_df))
               = List.length merged_df).
  { rewrite normalize_df_rows. unfold independent_of. now rewrite !length_map. }
  assert (Ly : List.length (cluster_column merged_df)
               = List.length (normalize_df (independent_of merged_df))).
  { rewrite LX. unfold cluster_column. now rewrite length_map. }
  split.
  - intros Hn. unfold logistic_regression.
    rewrite (train_test_split_small permutation _ _ Ly); [reflexivity|].
    rewrite LX. exact Hn.
  - intros Hn. rewrite <- LX in Hn, Hp.
    destruct (train_test_split_ok permutation _ _ Ly Hn Hp)
      as (s & Hs & L1 & L2 & L3 & L4 & _).
    rewrite LX in L1, L2, L3, L4.
    assert (Hrun : logistic_regression permutation fit_predict merged_df
                   = (y_pred <- fit_predict (X_train s) (y_train s) (X_test s) ;;
                      Ok (mk_evaluation (X_train s) (y_test s) y_pred)))
      by (unfold logistic_regression; rewrite Hs; reflexivity).
    exists s.
    split; [exact Hs|]. split; [exact L2|]. split; [exact L1|].
    split; [exact L4|]. split; [exact Hrun|].
    split; [|split].
    + intros H10. rewrite L2. unfold n_test_of.
      pose proof (Nat.div_mod_eq (List.length merged_df + 4) 5) as E.
      pose proof (Nat.mod_upper_bound (List.length merged_df + 4) 5). lia.
    + intros y_pred E. rewrite Hrun, E. reflexivity.
    + intros e E. rewrite Hrun, E. reflexivity.
Qed.

(** Five joined areas, in clusters 0, 1, 2, 0, 1, with indicators that vary. *)
Definition five_rows : list merged_row :=
  dropna (merge_right
            [ (1, level_row 50 0 "Moderate"); (2, level_row 90 1 "High");
              (3, level_row 5 2 "Low"); (4, level_row 40 0 "Moderate");
              (5, level_row 95 1 "High") ]
            [ census_of 1 10; census_of 2 30; census_of 3 50;
              census_of 4 20; census_of 5 40 ]).

(** A stand-in for the fitted classifier: it answers cluster 0. *)
Definition constant_classifier (X_train : list indicators)
    (y_train : list (cell nat)) (X_test : list indicators) : result (list nat) :=
  Ok (map (fun _ => 0%nat) X_test).

Lemma split_ignores_classes_witness :
  List.length five_rows = 5%nat
  /\ exists s,
       train_test_split (seq 0) (normalize_df (independent_of five_rows))
                        (cluster_column five_rows) = Ok s
       /\ List.length (y_test s) = 1%nat.
Proof.
  split; [reflexivity|].
  destruct (split_ignores_classes (seq 0) constant_classifier five_rows
              (Permutation_refl _)) as [_ H].
  destruct (H ltac:(vm_compute; lia)) as (s & Hs & L & _).
  exists s. split; [exact Hs | exact L].
Defined.

(** A stand-in for the classifier that refuses what scikit-learn's [fit]
    refuses, a NaN in its input and a training part of a single class, and
    otherwise answers the first class of the training part. *)
Definition has_nan (X : list indicators) : bool :=
  existsb (fun r => existsb (fun c => negb (notna (r c))) percentage_col) X.

Definition two_classes (y : list (cell nat)) : bool :=
  match y with
  | Some a :: rest =>
      existsb (fun c => match c with
                        | Some b => negb (b =? a)%nat
                        | None => false
                        end) rest
  | _ => false
  end.

Definition validating_classifier (X_train : list indicators)
    (y_train : list (cell nat)) (X_test : list indicators) : result (list nat) :=
  if has_nan X_train || has_nan X_test || existsb (fun c => negb (notna c)) y_train
  then Raise (ValueError "Input contains NaN")
  else if negb (two_classes y_train)
  then Raise (ValueError "This solver needs samples of at least 2 classes in the data")
  else Ok (map (fun _ => match y_train with
                         | Some a :: _ => a
                         | _ => 0%nat
                         end) X_test).

(** C9 as stated fails: a joined table of five rows in three classes cannot
    give every class a test row (the test part has one row), and the step
    returns an evaluation on that row instead of raising, also with a
    classifier that checks its input. *)
Lemma small_table_counterexample :
  cluster_column five_rows = [Some 0; Some 1; Some 2; Some 0; Some 1]%nat
  /\ has_nan (normalize_df (independent_of five_rows)) = false
  /\ option_map (fun ev => (eval_y_test ev, eval_y_pred ev))
       (match logistic_regression (seq 0) validating_classifier five_rows with
        | Ok ev => Some ev
        | Raise _ => None
        end)
     = Some ([Some 0%nat], [1%nat]).
Proof. repeat split. Qed.

(** ** Sorting by key *)

Section SortByKey.
Context {A : Type} (key : A -> Z).

Definition key_le (a b : A) : bool := key a <=? key b.

Lemma key_le_total (x y : A) : key_le x y = true \/ key_le y x = true.
Proof. unfold key_le. rewrite !Z.leb_le. lia. Qed.

Lemma key_le_trans (x y z : A) :
  key_le x y = true -> key_le y z = true -> key_le x z = true.
Proof. unfold key_le. rewrite !Z.leb_le. lia. Qed.

Lemma isort_key_sorted (l : list A) :
  StronglySorted (fun a b => key a <= key b) (isort key_le l).
Proof.
  pose proof (isort_sorted key_le key_le_total key_le_trans l) as H.
  induction H as [|x s Hs IH Hx]; constructor; [exact IH|].
  rewrite Forall_forall in *. intros y Hy. apply Z.leb_le, Hx, Hy.
Qed.

(** A list sorted by key already is left as it is. *)
Lemma isort_of_sorted (l : list A) :
  StronglySorted (fun a b => key a <= key b) l -> isort key_le l = l.
Proof.
  induction 1 as [|x l Hs IH Hx]; simpl; [reflexivity|].
  rewrite IH. destruct l as [|y l]; simpl; [reflexivity|].
  inversion Hx as [|? ? Hxy _]; subst.
  unfold key_le. apply Z.leb_le in Hxy. now rewrite Hxy.
Qed.

(** Two sorted lists with the same entries and no key twice are equal. *)
Lemma sorted_perm_eq (l1 l2 : list A) :
  StronglySorted (fun a b => key a <= key b) l1 ->
  StronglySorted (fun a b => key a <= key b) l2 ->
  NoDup (map key l1) -> Permutation l1 l2 -> l1 = l2.
Proof.
  intros H1. revert l2. induction H1 as [|a l1 Hs1 IH Ha]; intros l2 H2 Hnd Hp.
  - apply Permutation_nil in Hp. now subst.
  - destruct H2 as [|b l2 Hs2 Hb].
    + apply Permutation_sym, Permutation_nil in Hp. discriminate.
    + assert (Hnd2 : NoDup (map key (b :: l2))).
      { eapply Permutation_NoDup; [apply Permutation_map, Hp | exact Hnd]. }
      simpl in Hnd, Hnd2.
      inversion Hnd as [|? ? Hna Hnd1]; subst.
      inversion Hnd2 as [|? ? Hnb Hnd2']; subst.
      assert (E : a = b).
      { assert (Ha2 : In a (b :: l2)) by (apply (Permutation_in _ Hp); simpl; auto).
        assert (Hb1 : In b (a :: l1))
          by (apply (Permutation_in _ (Permutation_sym Hp)); simpl; auto).
        destruct Ha2 as [E|Ha2]; [now symmetry|].
        destruct Hb1 as [E|Hb1]; [exact E|].
        rewrite Forall_forall in Ha, Hb.
        pose proof (Ha b Hb1). pose proof (Hb a Ha2).
        assert (Ek : key a = key b) by lia.
        exfalso. apply Hna. rewrite Ek. apply in_map, Hb1. }
      subst b. f_equal. apply IH; [exact Hs2 | exact Hnd1|].
      eapply Permutation_cons_inv, Hp.
Qed.

Lemma isort_perm_eq (l1 l2 : list A) :
  NoDup (map key l1) -> Permutation l1 l2 ->
  isort key_le l1 = isort key_le l2.
Proof.
  intros Hnd Hp. apply sorted_perm_eq; try apply isort_key_sorted.
  - eapply Permutation_NoDup; [|exact Hnd].
    apply Permutation_map, Permutation_sym, isort_perm.
  - eapply perm_trans; [apply isort_perm|].
    eapply perm_trans; [exact Hp | apply Permutation_sym, isort_perm].
Qed.
End SortByKey.

(** ** The distinct areas *)

Lemma unique_In (x : Z) (xs : list Z) : In x (unique xs) <-> In x xs.
Proof.
  induction xs as [|y xs IH]; simpl; [tauto|].
  rewrite filter_In, IH, negb_true_iff, Z.eqb_neq.
  destruct (Z.eq_dec y x); intuition congruence.
Qed.

Lemma unique_NoDup (xs : list Z) : NoDup (unique xs).
Proof.
  induction xs as [|y xs IH]; simpl; constructor.
  - rewrite filter_In, negb_true_iff, Z.eqb_neq. tauto.
  - apply NoDup_filter, IH.
Qed.

(** The index of the community table: the distinct areas, ascending. *)
Definition sorted_areas (areas : list Z) : list Z := isort Z.leb (unique areas).

Lemma sorted_areas_In (k : Z) (areas : list Z) :
  In k (sorted_areas areas) <-> In k areas.
Proof. unfold sorted_areas. now rewrite isort_In, unique_In. Qed.

Lemma sorted_areas_NoDup (areas : list Z) : NoDup (sorted_areas areas).
Proof.
  eapply Permutation_NoDup; [apply Permutation_sym, isort_perm|].
  apply unique_NoDup.
Qed.

Lemma sorted_areas_sorted (areas : list Z) :
  StronglySorted Z.le (sorted_areas areas).
Proof.
  pose proof (isort_key_sorted (fun k : Z => k) (unique areas)) as H.
  exact H.
Qed.

Lemma sorted_areas_strict (areas : list Z) :
  StronglySorted Z.lt (sorted_areas areas).
Proof.
  pose proof (sorted_areas_sorted areas) as Hs.
  pose proof (sorted_areas_NoDup areas) as Hn.
  induction Hs as [|x l Hs IH Hx]; constructor.
  - apply IH. now inversion Hn.
  - inversion Hn as [|? ? Hnx _]; subst.
    rewrite Forall_forall in *. intros y Hy.
    specialize (Hx y Hy). assert (x <> y) by congruence. lia.
Qed.

Lemma sorted_areas_perm (areas areas' : list Z) :
  Permutation areas areas' -> sorted_areas areas = sorted_areas areas'.
Proof.
  intros Hp. unfold sorted_areas.
  apply (isort_perm_eq (fun k : Z => k)).
  - rewrite map_id. apply unique_NoDup.
  - apply NoDup_Permutation; try apply unique_NoDup.
    intros x. rewrite !unique_In.
    split; apply Permutation_in; [exact Hp | apply Permutation_sym, Hp].
Qed.

(** ** The three Series and the table built from them *)

Lemma StronglySorted_map {A B : Type} (R : B -> B -> Prop) (f : A -> B)
    (l : list A) :
  StronglySorted (fun a b => R (f a) (f b)) l -> StronglySorted R (map f l).
Proof.
  induction 1 as [|x l Hs IH Hx]; simpl; constructor; [exact IH|].
  rewrite Forall_forall in *. intros y Hy. apply in_map_iff in Hy.
  destruct Hy as (a & <- & Ha). auto.
Qed.

Lemma index_tabulate {V : Type} (g : Z -> V) (keys : list Z) :
  index (map (fun k => (k, g k)) keys) = keys.
Proof. unfold index. rewrite map_map. simpl. apply map_id. Qed.

Lemma lookup_tabulate {V : Type} (g : Z -> V) (keys : list Z) (k : Z) :
  In k keys -> lookup k (map (fun k => (k, g k)) keys) = Some (g k).
Proof.
  unfold lookup. induction keys as [|x keys IH]; intros H; [destruct H|].
  simpl. destruct (Z.eqb_spec x k) as [->|Hne]; [reflexivity|].
  destruct H as [H|H]; [contradiction | auto].
Qed.

Lemma sort_index_tabulate {V : Type} (g : Z -> V) (areas : list Z) :
  sort_index (map (fun k => (k, g k)) (sorted_areas areas))
  = map (fun k => (k, g k)) (sorted_areas areas).
Proof.
  apply (isort_of_sorted fst). apply StronglySorted_map. simpl.
  apply sorted_areas_sorted.
Qed.

Lemma sort_index_value_counts (areas : list Z) :
  sort_index (value_counts areas)
  = map (fun k => (k, count k areas)) (sorted_areas areas).
Proof.
  unfold sort_index, value_counts, sorted_areas.
  set (f := fun k : Z => (k, count k areas)).
  set (cnt := fun a b : Z * nat => (snd b <=? snd a)%nat).
  change (isort (key_le fst) (isort cnt (map f (unique areas)))
          = map f (isort Z.leb (unique areas))).
  rewrite (isort_perm_eq fst _ (map f (unique areas))).
  - apply isort_map. reflexivity.
  - eapply Permutation_NoDup;
      [apply Permutation_map, Permutation_sym, isort_perm|].
    rewrite map_map. simpl. rewrite map_id. apply unique_NoDup.
  - apply isort_perm.
Qed.

Lemma sort_index_groupby_mean (areas : list Z) (vals : list bool) :
  sort_index (groupby_mean areas vals)
  = map (fun k => (k, mean (group areas vals k))) (sorted_areas areas).
Proof. apply (sort_index_tabulate (fun k => mean (group areas vals k))). Qed.

Lemma union_indexes_same (keys : list Z) : union_indexes keys keys keys = keys.
Proof.
  unfold union_indexes.
  destruct (list_eq_dec Z.eq_dec keys keys) as [_|N]; [reflexivity|].
  now destruct N.
Qed.

(** The community table in closed form: one row per distinct area. *)
Definition community_table (areas : list Z) (arrests domestics : list bool)
  : Series community_row :=
  map (fun k => (k, {| Crime_Count := Some (count k areas);
                       Arrest_Rate := mean (group areas arrests k);
                       Domestic_Rate := mean (group areas domestics k) |}))
      (sorted_areas areas).

Lemma DataFrame_of_series (areas : list Z) (arrests domestics : list bool) :
  DataFrame (sort_index (value_counts areas))
            (sort_index (groupby_mean areas arrests))
            (sort_index (groupby_mean areas domestics))
  = community_table areas arrests domestics.
Proof.
  rewrite sort_index_value_counts, !sort_index_groupby_mean.
  unfold DataFrame, community_table.
  rewrite (index_tabulate (fun k => count k areas)).
  rewrite (index_tabulate (fun k => mean (group areas arrests k))).
  rewrite (index_tabulate (fun k => mean (group areas domestics k))).
  rewrite union_indexes_same.
  apply map_ext_in. intros k Hk.
  rewrite (lookup_tabulate (fun k => count k areas) _ _ Hk).
  rewrite (lookup_tabulate (fun k => mean (group areas arrests k)) _ _ Hk).
  rewrite (lookup_tabulate (fun k => mean (group areas domestics k)) _ _ Hk).
  reflexivity.
Qed.

(** ** The filter *)

Lemma take_mask_map {A B : Type} (p : A -> bool) (g : A -> B) (xs : list A) :
  take_mask (map p xs) (map g xs) = map g (filter p xs).
Proof.
  induction xs as [|x xs IH]; simpl; [reflexivity|].
  destruct (p x); simpl; now rewrite IH.
Qed.

Lemma filter_filter {A : Type} (p q : A -> bool) (xs : list A) :
  filter q (filter p xs) = filter (fun x => p x && q x) xs.
Proof.
  induction xs as [|x xs IH]; simpl; [reflexivity|].
  destruct (p x); simpl; [destruct (q x); now rewrite IH | exact IH].
Qed.

(** The year is in 2008..2012 and the area is there and is not 0. *)
Definition qualifies (r : incident) : bool :=
  (2008 <=? year r) && (year r <=? 2012)
  && match community_area r with
     | Some a => negb (a =? 0)
     | None => false
     end.

Definition area_of (r : incident) : Z :=
  match community_area r with
  | Some a => a
  | None => 0
  end.

Lemma astype_int_present (rs : list incident) :
  Forall (fun r => notna (community_area r) = true) rs ->
  astype_int (map community_area rs) = Ok (map area_of rs).
Proof.
  induction 1 as [|r rs Hr _ IH]; simpl; [reflexivity|].
  unfold area_of at 1. destruct (community_area r); [|discriminate].
  rewrite IH. reflexivity.
Qed.

Lemma filter_df_frame_of (recs : list incident) :
  filter_df (frame_of recs)
  = Ok {| Year := Some (map year (filter qualifies recs));
          Community_Area := Some (map area_of (filter qualifies recs));
          Arrest := Some (map arrest_made (filter qualifies recs));
          Domestic := Some (map is_domestic (filter qualifies recs)) |}.
Proof.
  unfold filter_df, frame_of, loc. simpl.
  rewrite !map_map.
  rewrite !(take_mask_map (fun r => (2008 <=? year r) && (year r <=? 2012))).
  rewrite !map_map.
  rewrite !(take_mask_map (fun r => ne_zero (community_area r))).
  rewrite !map_map.
  rewrite !(take_mask_map (fun r => notna (community_area r))).
  rewrite !filter_filter.
  assert (E : filter (fun x => (2008 <=? year x) && (year x <=? 2012)
                               && (ne_zero (community_area x)
                                   && notna (community_area x))) recs
              = filter qualifies recs).
  { apply filter_ext. intros r. unfold qualifies, ne_zero, notna.
    destruct (community_area r); simpl; [now rewrite andb_true_r | reflexivity]. }
  rewrite E. rewrite astype_int_present; [reflexivity|].
  rewrite Forall_forall. intros r Hr. apply filter_In in Hr.
  destruct Hr as [_ Hr]. unfold qualifies in Hr.
  destruct (community_area r); [reflexivity|].
  now rewrite andb_false_r in Hr.
Qed.

Lemma community_data_of_frame_of (recs : list incident) :
  community_data_of (frame_of recs)
  = Ok (community_table (map area_of (filter qualifies recs))
                        (map arrest_made (filter qualifies recs))
                        (map is_domestic (filter qualifies recs))).
Proof.
  unfold community_data_of. rewrite filter_df_frame_of. simpl.
  now rewrite DataFrame_of_series.
Qed.

(** ** The aggregate of an incident set *)

(** The qualifying records of area [k]. *)
Definition records_of (recs : list incident) (k : Z) : list incident :=
  filter (fun r => qualifies r && key_eqb k (community_area r)) recs.

(** The mean of a boolean field over some records: those that have it set
    over all of them. *)
Definition rate (flags : list bool) : Q :=
  Z.of_nat (count_true flags) # Pos.of_nat (List.length flags).

Lemma filter_map_comm {A B : Type} (p : B -> bool) (f : A -> B) (l : list A) :
  filter p (map f l) = map f (filter (fun x => p (f x)) l).
Proof.
  induction l as [|x l IH]; simpl; [reflexivity|].
  destruct (p (f x)); simpl; now rewrite IH.
Qed.

Lemma qualifying_of_area (recs : list incident) (k : Z) :
  filter (fun r => area_of r =? k) (filter qualifies recs) = records_of recs k.
Proof.
  rewrite filter_filter. apply filter_ext. intros r.
  unfold qualifies, area_of, key_eqb.
  destruct (community_area r) as [a|]; [|now rewrite !andb_false_r].
  now rewrite (Z.eqb_sym a k).
Qed.

Lemma count_records (recs : list incident) (k : Z) :
  count k (map area_of (filter qualifies recs))
  = List.length (records_of recs k).
Proof.
  unfold count. rewrite filter_map_comm, length_map.
  rewrite <- qualifying_of_area. f_equal. apply filter_ext.
  intros r. apply Z.eqb_sym.
Qed.

Lemma group_map {A V : Type} (key : A -> Z) (f : A -> V) (l : list A) (k : Z) :
  group (map key l) (map f l) k = map f (filter (fun r => key r =? k) l).
Proof.
  unfold group. induction l as [|x l IH]; simpl; [reflexivity|].
  destruct (key x =? k); simpl; now rewrite IH.
Qed.

Lemma group_records {V : Type} (f : incident -> V) (recs : list incident) (k : Z) :
  group (map area_of (filter qualifies recs)) (map f (filter qualifies recs)) k
  = map f (records_of recs k).
Proof. now rewrite group_map, qualifying_of_area. Qed.

Lemma mean_rate (flags : list bool) :
  flags <> [] -> mean flags = Some (rate flags).
Proof. destruct flags; [congruence | reflexivity]. Qed.

Lemma count_true_le (flags : list bool) :
  (count_true flags <= List.length flags)%nat.
Proof.
  unfold count_true. induction flags as [|b l IH]; simpl; [lia|].
  destruct b; simpl; lia.
Qed.

Lemma rate_bounds (flags : list bool) :
  flags <> [] -> (0 <= rate flags)%Q /\ (rate flags <= 1)%Q.
Proof.
  intros Hne. unfold rate, Qle. simpl.
  assert (Hn : List.length flags <> 0%nat) by (destruct flags; simpl; congruence).
  pose proof (count_true_le flags) as Hle.
  assert (E : Z.pos (Pos.of_nat (List.length flags)) = Z.of_nat (List.length flags)).
  { rewrite <- positive_nat_Z, Nat2Pos.id; [reflexivity | exact Hn]. }
  rewrite E. lia.
Qed.

Lemma records_of_In (recs : list incident) (k : Z) (r : incident) :
  In r (records_of recs k)
  <-> In r recs /\ qualifies r = true /\ community_area r = Some k.
Proof.
  unfold records_of. rewrite filter_In, andb_true_iff, key_eqb_true. tauto.
Qed.

Lemma qualifying_area_In (recs : list incident) (k : Z) :
  In k (map area_of (filter qualifies recs))
  <-> exists r, In r recs /\ qualifies r = true /\ community_area r = Some k.
Proof.
  rewrite in_map_iff. split.
  - intros (r & E & Hr). apply filter_In in Hr. destruct Hr as [Hr Hq].
    exists r. split; [exact Hr|]. split; [exact Hq|].
    unfold qualifies in Hq. unfold area_of in E.
    destruct (community_area r); [congruence | now rewrite andb_false_r in Hq].
  - intros (r & Hr & Hq & E). exists r.
    split; [unfold area_of; now rewrite E | apply filter_In; auto].
Qed.

(** C2. On every incident set the aggregator returns a table with one row
    per distinct area of the qualifying records (year in 2008..2012, area
    present and not 0), in ascending order of the area: its crime count is
    the number of these records, its arrest rate and its domestic rate are
    the means of [arrest_made] and [is_domestic] over them and lie in
    [0, 1]. Area 0 has no row, nor has an area with no qualifying record. *)
Theorem aggregate_one_row_per_area (recs : list incident) :
  exists table,
    community_data_of (frame_of recs) = Ok table
    /\ StronglySorted Z.lt (index table)
    /\ NoDup (index table)
    /\ (forall k, In k (index table) <->
          exists r, In r recs /\ qualifies r = true /\ community_area r = Some k)
    /\ ~ In 0 (index table)
    /\ (forall k, records_of recs k = [] -> ~ In k (index table))
    /\ (forall k row, In (k, row) table ->
          records_of recs k <> []
          /\ Crime_Count row = Some (List.length (records_of recs k))
          /\ Arrest_Rate row = Some (rate (map arrest_made (records_of recs k)))
          /\ Domestic_Rate row = Some (rate (map is_domestic (records_of recs k)))
          /\ (0 <= rate (map arrest_made (records_of recs k)))%Q
          /\ (rate (map arrest_made (records_of recs k)) <= 1)%Q
          /\ (0 <= rate (map is_domestic (records_of recs k)))%Q
          /\ (rate (map is_domestic (records_of recs k)) <= 1)%Q).
Proof.
  set (qs := filter qualifies recs).
  exists (community_table (map area_of qs) (map arrest_made qs) (map is_domestic qs)).
  split; [apply community_data_of_frame_of|].
  assert (Hidx : index (community_table (map area_of qs) (map arrest_made qs)
                                        (map is_domestic qs))
                 = sorted_areas (map area_of qs)).
  { unfold community_table.
    apply (index_tabulate
             (fun k => {| Crime_Count := Some (count k (map area_of qs));
                          Arrest_Rate := mean (group (map area_of qs) (map arrest_made qs) k);
                          Domestic_Rate := mean (group (map area_of qs) (map is_domestic qs) k) |})). }
  rewrite Hidx.
  assert (Hin : forall k, In k (sorted_areas (map area_of qs)) <->
            exists r, In r recs /\ qualifies r = true /\ community_area r = Some k).
  { intros k. rewrite sorted_areas_In. apply qualifying_area_In. }
  assert (Hrec : forall k, In k (sorted_areas (map area_of qs)) ->
                           records_of recs k <> []).
  { intros k Hk E. apply Hin in Hk. destruct Hk as (r & Hr).
    apply records_of_In in Hr. rewrite E in Hr. destruct Hr. }
  split; [apply sorted_areas_strict|].
  split; [apply sorted_areas_NoDup|].
  split; [exact Hin|].
  split.
  { intros H. apply Hin in H. destruct H as (r & _ & Hq & E).
    unfold qualifies in Hq. rewrite E in Hq. simpl in Hq.
    now rewrite andb_false_r in Hq. }
  split; [intros k E Hk; exact (Hrec k Hk E)|].
  intros k row Hrow. unfold community_table in Hrow.
  apply in_map_iff in Hrow. destruct Hrow as (k' & E & Hk).
  inversion E; subst k' row. clear E. simpl.
  pose proof (Hrec k Hk) as Hne.
  assert (Ha : map arrest_made (records_of recs k) <> [])
    by (destruct (records_of recs k); simpl; congruence).
  assert (Hd : map is_domestic (records_of recs k) <> [])
    by (destruct (records_of recs k); simpl; congruence).
  unfold qs. rewrite count_records, !group_records.
  rewrite (mean_rate _ Ha), (mean_rate _ Hd).
  destruct (rate_bounds _ Ha), (rate_bounds _ Hd).
  repeat split; assumption.
Qed.

(** ** Reordering the records *)

Lemma filter_perm {A : Type} (p : A -> bool) (l l' : list A) :
  Permutation l l' -> Permutation (filter p l) (filter p l').
Proof.
  induction 1 as [|x l l' _ IH|x y l|l l' l'' _ IH1 _ IH2]; simpl.
  - constructor.
  - destruct (p x); [apply perm_skip|]; exact IH.
  - destruct (p x), (p y); try apply Permutation_refl. apply perm_swap.
  - eapply perm_trans; eassumption.
Qed.

Lemma mean_perm (flags flags' : list bool) :
  Permutation flags flags' -> mean flags = mean flags'.
Proof.
  intros Hp.
  pose proof (Permutation_length Hp) as Hl.
  pose proof (Permutation_length (filter_perm (fun b => b) _ _ Hp)) as Hc.
  destruct flags as [|b l], flags' as [|b' l']; try discriminate; [reflexivity|].
  unfold mean, count_true. now rewrite Hl, Hc.
Qed.

Lemma records_of_perm (recs recs' : list incident) (k : Z) :
  Permutation recs recs' -> Permutation (records_of recs k) (records_of recs' k).
Proof. apply filter_perm. Qed.

Lemma community_table_perm (recs recs' : list incident) :
  Permutation recs recs' ->
  community_table (map area_of (filter qualifies recs))
                  (map arrest_made (filter qualifies recs))
                  (map is_domestic (filter qualifies recs))
  = community_table (map area_of (filter qualifies recs'))
                    (map arrest_made (filter qualifies recs'))
                    (map is_domestic (filter qualifies recs')).
Proof.
  intros Hp. unfold community_table.
  rewrite (sorted_areas_perm _ (map area_of (filter qualifies recs')))
    by (apply Permutation_map, filter_perm, Hp).
  apply map_ext. intros k.
  rewrite !count_records, !group_records.
  pose proof (records_of_perm _ _ k Hp) as Hk.
  rewrite (Permutation_length Hk).
  rewrite (mean_perm _ _ (Permutation_map arrest_made Hk)).
  rewrite (mean_perm _ _ (Permutation_map is_domestic Hk)).
  reflexivity.
Qed.

(** C6. Reordering the incident records changes nothing: the aggregate
    table is the same, and so, with the same seeded estimator, are the
    cluster and the crime level of every area, and the whole run. *)
Theorem pipeline_permutation_invariant (kmeans : estimator)
    (recs recs' : list incident) :
  Permutation recs recs' ->
  community_data_of (frame_of recs) = community_data_of (frame_of recs')
  /\ (community_data <- community_data_of (frame_of recs) ;;
      KMeans_clustering kmeans community_data)
     = (community_data <- community_data_of (frame_of recs') ;;
        KMeans_clustering kmeans community_data)
  /\ (forall permutation fit_predict df_census,
        main permutation fit_predict kmeans (frame_of recs) df_census
        = main permutation fit_predict kmeans (frame_of recs') df_census).
Proof.
  intros Hp.
  assert (E : community_data_of (frame_of recs)
              = community_data_of (frame_of recs')).
  { rewrite !community_data_of_frame_of. f_equal.
    apply community_table_perm, Hp. }
  split; [exact E|]. split; [now rewrite E|].
  intros permutation fit_predict df_census. unfold main. now rewrite E.
Qed.

Definition demo_incidents : list incident :=
  [ mk_incident 2009 (Some 3) true false;
    mk_incident 2007 (Some 3) true true;
    mk_incident 2010 (Some 1) false true;
    mk_incident 2012 (Some 3) false false;
    mk_incident 2011 (Some 0) true true;
    mk_incident 2008 None true true;
    mk_incident 2013 (Some 1) true true;
    mk_incident 2010 (Some 1) true true ].

Lemma pipeline_permutation_invariant_witness :
  community_data_of (frame_of demo_incidents)
  = Ok [ (1, mk_community_row (Some 2%nat) (Some (1 # 2)) (Some (2 # 2)));
         (3, mk_community_row (Some 2%nat) (Some (1 # 2)) (Some (0 # 2))) ]
  /\ community_data_of (frame_of (rev demo_incidents))
     = community_data_of (frame_of demo_incidents).
Proof.
  split; [reflexivity|].
  exact (proj1 (pipeline_permutation_invariant demo_estimator
                  (rev demo_incidents) demo_incidents
                  (Permutation_sym (Permutation_rev demo_incidents)))).
Defined.

(** ** A missing column *)

Lemma astype_int_notna (col : list (cell Z)) :
  exists ints, astype_int (take_mask (map notna col) col) = Ok ints.
Proof.
  induction col as [|[a|] col (ints & IH)]; simpl.
  - eauto.
  - rewrite IH. simpl. eauto.
  - eauto.
Qed.

(** C7. When the incident table lacks one of the columns Year, Community
    Area, Arrest, Domestic, the aggregator raises the KeyError of a missing
    column, named after the first one it reads and does not find; it returns
    no table. *)
Theorem missing_column_raises (df_crime : crime_frame (cell Z)) :
  Year df_crime = None \/ Community_Area df_crime = None
  \/ Arrest df_crime = None \/ Domestic df_crime = None ->
  exists name,
    community_data_of df_crime = Raise (KeyError name)
    /\ ((name = "Year"%string /\ Year df_crime = None)
        \/ (name = "Community Area"%string /\ Community_Area df_crime = None)
        \/ (name = "Column not found: Arrest"%string /\ Arrest df_crime = None)
        \/ (name = "Column not found: Domestic"%string
            /\ Domestic df_crime = None)).
Proof.
  intros Hmiss. destruct df_crime as [yr ca ar dm]. simpl in *.
  unfold community_data_of, filter_df. simpl.
  destruct yr as [yr|]; simpl; [|exists "Year"%string; auto].
  destruct ca as [ca|]; simpl; [|exists "Community Area"%string; auto 6].
  match goal with
  | |- context [astype_int (take_mask (map notna ?c) ?c)] =>
      destruct (astype_int_notna c) as (ints & ->)
  end.
  simpl.
  destruct ar as [ar|]; simpl; [|exists "Column not found: Arrest"%string; auto 6].
  destruct dm as [dm|]; simpl; [|exists "Column not found: Domestic"%string; auto 6].
  exfalso. destruct Hmiss as [H|[H|[H|H]]]; discriminate.
Qed.

Lemma missing_column_raises_witness :
  community_data_of
    {| Year := Some [2009; 2010];
       Community_Area := Some [Some 3; Some 1];
       Arrest := None;
       Domestic := Some [false; true] |}
  = Raise (KeyError "Column not found: Arrest").
Proof.
  destruct (missing_column_raises
              {| Year := Some [2009; 2010];
                 Community_Area := Some [Some 3; Some 1];
                 Arrest := None;
                 Domestic := Some [false; true] |}
              (or_intror (or_intror (or_introl eq_refl))))
    as (name & -> & [[_ H]|[[_ H]|[[-> _]|[_ H]]]]);
    try discriminate H.
  reflexivity.
Defined.

(** * Further properties of the pipeline *)

(** ** [filter_df] on its own *)

(** X1. [filter_df] keeps the qualifying records and nothing else, in the order
    of the input and in every column; the area column comes out as integers. *)
Theorem filter_df_keeps_qualifying_in_order (recs : list incident) :
  exists df_filtered,
    filter_df (frame_of recs) = Ok df_filtered
    /\ Year df_filtered = Some (map year (filter qualifies recs))
    /\ Community_Area df_filtered = Some (map area_of (filter qualifies recs))
    /\ Arrest df_filtered = Some (map arrest_made (filter qualifies recs))
    /\ Domestic df_filtered = Some (map is_domestic (filter qualifies recs))
    /\ Forall (fun r => 2008 <= year r <= 2012
                        /\ community_area r = Some (area_of r)
                        /\ area_of r <> 0)
              (filter qualifies recs).
Proof.
  eexists. split; [apply filter_df_frame_of|]. simpl.
  repeat split.
  rewrite Forall_forall. intros r Hr. apply filter_In in Hr.
  destruct Hr as [_ Hq]. unfold qualifies in Hq. unfold area_of.
  apply andb_true_iff in Hq. destruct Hq as [Hy Ha].
  apply andb_true_iff in Hy. destruct Hy as [H1 H2].
  apply Z.leb_le in H1. apply Z.leb_le in H2.
  destruct (community_area r) as [a|]; [|discriminate].
  apply negb_true_iff, Z.eqb_neq in Ha. auto.
Qed.

Lemma take_mask_ne_zero (col : list (cell Z)) :
  ~ In (Some 0) (take_mask (map ne_zero col) col).
Proof.
  induction col as [|[a|] col IH]; simpl; [tauto| |].
  - destruct (Z.eqb_spec a 0) as [->|Hne]; simpl; [exact IH|].
    intros [E|H]; [congruence | auto].
  - intros [E|H]; [discriminate | auto].
Qed.

Lemma take_mask_sub {A : Type} (mask : list bool) (xs : list A) (x : A) :
  In x (take_mask mask xs) -> In x xs.
Proof.
  revert xs. induction mask as [|m mask IH]; intros [|y xs] H; simpl in *;
    try tauto.
  destruct m; [destruct H as [H|H]; auto | auto].
Qed.

Lemma astype_int_values (col : list (cell Z)) (ints : list Z) :
  astype_int col = Ok ints -> forall a, In a ints -> In (Some a) col.
Proof.
  revert ints. induction col as [|[c|] col IH]; intros ints H a Ha; simpl in H.
  - inversion H; subst. destruct Ha.
  - destruct (astype_int col) as [rest|]; simpl in H; [|discriminate].
    inversion H; subst. destruct Ha as [->|Ha]; simpl; eauto.
  - discriminate.
Qed.

(** X2. The only way [filter_df] fails is a missing Year or Community Area
    column: the cast to integers cannot fail, because the rows without an
    area are dropped before it. When it succeeds no area of its result is 0. *)
Theorem filter_df_fails_only_on_missing_column (df_crime : crime_frame (cell Z)) :
  (Year df_crime = None -> filter_df df_crime = Raise (KeyError "Year"))
  /\ (Year df_crime <> None -> Community_Area df_crime = None ->
        filter_df df_crime = Raise (KeyError "Community Area"))
  /\ (Year df_crime <> None -> Community_Area df_crime <> None ->
        exists df_filtered areas,
          filter_df df_crime = Ok df_filtered
          /\ Community_Area df_filtered = Some areas
          /\ ~ In 0 areas).
Proof.
  destruct df_crime as [yr ca ar dm]. simpl.
  split; [intros ->; reflexivity|].
  split.
  - intros Hy ->. destruct yr; [reflexivity | congruence].
  - intros Hy Hc. destruct yr as [yr|]; [|congruence].
    destruct ca as [ca|]; [|congruence].
    unfold filter_df. simpl.
    match goal with
    | |- context [astype_int (take_mask (map notna ?c) ?c)] =>
        destruct (astype_int_notna c) as (ints & E);
        pose proof (take_mask_ne_zero
                      (take_mask (map (fun y => (2008 <=? y) && (y <=? 2012)) yr) ca))
          as Hz
    end.
    rewrite E. simpl. eexists. exists ints.
    split; [reflexivity|]. split; [reflexivity|].
    intros H0. apply (astype_int_values _ _ E) in H0.
    apply take_mask_sub in H0. exact (Hz H0).
Qed.

Lemma filter_df_fails_only_on_missing_column_witness :
  filter_df {| Year := Some [2009; 2010; 2011];
               Community_Area := Some [None; Some 0; Some 7];
               Arrest := None;
               Domestic := None |}
  = Ok {| Year := Some [2011];
          Community_Area := Some [7];
          Arrest := None;
          Domestic := None |}
  /\ exists df_filtered areas,
       filter_df {| Year := Some [2009; 2010; 2011];
                    Community_Area := Some [None; Some 0; Some 7];
                    Arrest := None;
                    Domestic := None |} = Ok df_filtered
       /\ Community_Area df_filtered = Some areas /\ ~ In 0 areas.
Proof.
  split; [reflexivity|].
  apply (filter_df_fails_only_on_missing_column
           {| Year := Some [2009; 2010; 2011];
              Community_Area := Some [None; Some 0; Some 7];
              Arrest := None;
              Domestic := None |}); discriminate.
Defined.

(** ** Totals of the aggregate *)

Lemma count_cons (k x : Z) (xs : list Z) :
  count k (x :: xs) = ((if Z.eqb k x then 1 else 0) + count k xs)%nat.
Proof. unfold count. simpl. destruct (k =? x); reflexivity. Qed.

Lemma sum_indicator (x : Z) (keys : list Z) :
  NoDup keys -> In x keys ->
  list_sum (map (fun k => if Z.eqb k x then 1%nat else 0%nat) keys) = 1%nat.
Proof.
  induction 1 as [|k keys Hk Hnd IH]; intros Hx; [destruct Hx|].
  simpl. destruct (Z.eqb_spec k x) as [->|Hne].
  - f_equal. clear IH Hx Hnd. induction keys as [|j keys IH]; [reflexivity|].
    simpl. destruct (Z.eqb_spec j x) as [->|_].
    + exfalso. apply Hk. simpl. auto.
    + apply IH. intros H. apply Hk. simpl. auto.
  - destruct Hx as [Hx|Hx]; [contradiction | auto].
Qed.

Lemma sum_counts (keys xs : list Z) :
  NoDup keys -> (forall x, In x xs -> In x keys) ->
  list_sum (map (fun k => count k xs) keys) = List.length xs.
Proof.
  intros Hnd. induction xs as [|x xs IH]; intros Hin.
  - induction keys as [|k keys IHk]; [reflexivity|]. simpl.
    inversion Hnd; subst. now rewrite IHk.
  - rewrite (map_ext _ (fun k => ((if Z.eqb k x then 1 else 0)
                                  + count k xs)%nat))
      by (intros k; apply count_cons).
    assert (Hsplit : forall (f g : Z -> nat) l,
              list_sum (map (fun k => (f k + g k)%nat) l)
              = (list_sum (map f l) + list_sum (map g l))%nat).
    { intros f g l. induction l as [|a l IHl]; simpl; [reflexivity|].
      rewrite IHl. lia. }
    rewrite Hsplit, sum_indicator, IH.
    + reflexivity.
    + intros y Hy. apply Hin. simpl. auto.
    + exact Hnd.
    + apply Hin. simpl. auto.
Qed.

(** The crime count of a row; 0 stands for a NaN. *)
Definition crime_count_or_zero (row : community_row) : nat :=
  match Crime_Count row with
  | Some n => n
  | None => 0%nat
  end.

(** X3. The aggregation loses no qualifying record and counts none twice: the
    crime counts of the table add up to the number of qualifying records.
    In particular the table is empty exactly when no record qualifies, and
    the aggregator raises nothing then. *)
Theorem aggregate_counts_every_record_once (recs : list incident) :
  exists table,
    community_data_of (frame_of recs) = Ok table
    /\ list_sum (map (fun r => crime_count_or_zero (snd r)) table)
       = List.length (filter qualifies recs)
    /\ (table = [] <-> filter qualifies recs = []).
Proof.
  eexists. split; [apply community_data_of_frame_of|].
  set (areas := map area_of (filter qualifies recs)).
  split.
  - unfold community_table. rewrite map_map. simpl.
    unfold crime_count_or_zero. simpl.
    rewrite (sum_counts (sorted_areas areas) areas).
    + unfold areas. apply length_map.
    + apply sorted_areas_NoDup.
    + intros x Hx. apply sorted_areas_In, Hx.
  - unfold community_table. split.
    + intros E. apply map_eq_nil in E.
      destruct (filter qualifies recs) as [|r rs] eqn:F; [reflexivity|].
      exfalso. assert (H : In (area_of r) (sorted_areas areas)).
      { apply sorted_areas_In. unfold areas. simpl. auto. }
      rewrite E in H. destruct H.
    + intros E. unfold areas. rewrite E. reflexivity.
Qed.

(** ** Clustering adds columns only *)

Lemma KMeans_clustering_inv (kmeans : estimator)
    (community_data : Series community_row) (table : Series labelled_row) :
  KMeans_clustering kmeans community_data = Ok table ->
  exists fit labels,
    kmeans (map snd community_data) = Ok fit
    /\ List.length (labels_ fit) = List.length community_data
    /\ cluster_labels (cluster_centers_ fit) = Ok labels
    /\ table = map (fun r : Z * community_row * nat =>
                      (fst (fst r),
                       {| stats := snd (fst r);
                          Cluster := snd r;
                          Crime_Level := dict_get labels (snd r) |}))
                   (combine community_data (labels_ fit)).
Proof.
  unfold KMeans_clustering. intros H.
  destruct (kmeans (map snd community_data)) as [fit|]; simpl in H; [|discriminate].
  destruct (Nat.eqb_spec (List.length (labels_ fit)) (List.length community_data))
    as [El|]; simpl in H; [|discriminate].
  destruct (cluster_labels (cluster_centers_ fit)) as [labels|] eqn:Ec;
    simpl in H; [|discriminate].
  inversion H. exists fit, labels. auto.
Qed.

Lemma cluster_labels_length (centroids : list centroid) :
  List.length (sort_values_desc (centroid_df centroids)) = List.length centroids.
Proof.
  unfold sort_values_desc, centroid_df.
  rewrite isort_length, length_combine, length_seq. apply Nat.min_id.
Qed.

(** X4. [KMeans_clustering] returns a table only when the estimator gave one
    label per row and exactly three centres, and then the table has the same
    index and the same statistics as its input, row by row: the clustering
    adds the two columns and touches nothing else. With any other number of
    centres the assignment of the three level names raises a ValueError. *)
Theorem KMeans_clustering_adds_columns_only (kmeans : estimator)
    (community_data : Series community_row) :
  (forall table,
     KMeans_clustering kmeans community_data = Ok table ->
     map fst table = map fst community_data
     /\ map (fun r => stats (snd r)) table = map snd community_data
     /\ exists fit,
          kmeans (map snd community_data) = Ok fit
          /\ map (fun r => Cluster (snd r)) table = labels_ fit
          /\ List.length (cluster_centers_ fit) = 3%nat)
  /\ (forall fit,
        kmeans (map snd community_data) = Ok fit ->
        List.length (labels_ fit) = List.length community_data ->
        List.length (cluster_centers_ fit) <> 3%nat ->
        KMeans_clustering kmeans community_data
        = Raise (ValueError "Length of values does not match length of index"))
  /\ (forall e,
        kmeans (map snd community_data) = Raise e ->
        KMeans_clustering kmeans community_data = Raise e).
Proof.
  split; [|split].
  - intros table H.
    destruct (KMeans_clustering_inv _ _ _ H) as (fit & labels & Hf & Hl & Hc & ->).
    assert (Hc1 : map fst (combine community_data (labels_ fit)) = community_data)
      by (apply map_fst_combine; lia).
    assert (Hc2 : map snd (combine community_data (labels_ fit)) = labels_ fit)
      by (apply map_snd_combine; lia).
    split; [rewrite map_map; simpl; rewrite <- Hc1 at 2; now rewrite map_map|].
    split; [rewrite map_map; simpl; rewrite <- Hc1 at 2; now rewrite map_map|].
    exists fit. split; [exact Hf|]. split; [rewrite map_map; exact Hc2|].
    unfold cluster_labels in Hc. rewrite cluster_labels_length in Hc.
    destruct (Nat.eqb_spec (List.length (cluster_centers_ fit))
                           (List.length crime_levels)) as [E|]; [exact E|].
    discriminate.
  - intros fit Hf Hl Hn. unfold KMeans_clustering. rewrite Hf. simpl.
    rewrite Hl, Nat.eqb_refl. simpl.
    unfold cluster_labels. rewrite cluster_labels_length.
    destruct (Nat.eqb_spec (List.length (cluster_centers_ fit))
                           (List.length crime_levels)) as [E|]; [|reflexivity].
    contradiction.
  - intros e He. unfold KMeans_clustering. rewrite He. reflexivity.
Qed.

Lemma KMeans_clustering_adds_columns_only_witness :
  exists table,
    KMeans_clustering demo_estimator demo_community_data = Ok table
    /\ map fst table = [1; 2; 3]
    /\ map (fun r => stats (snd r)) table = map snd demo_community_data.
Proof.
  eexists. split; [reflexivity|].
  destruct (proj1 (KMeans_clustering_adds_columns_only demo_estimator
                     demo_community_data) _ eq_refl) as (H1 & H2 & _).
  split; [exact H1 | exact H2].
Defined.

(** ** The right join as a lookup *)

Lemma filter_key_find (community_data : Series labelled_row) (c : cell Z) :
  NoDup (index community_data) ->
  filter (fun l => key_eqb (fst l) c) community_data
  = match find (fun l => key_eqb (fst l) c) community_data with
    | Some l => [l]
    | None => []
    end.
Proof.
  unfold index. induction community_data as [|l cd IH]; intros Hnd; simpl;
    [reflexivity|].
  inversion Hnd as [|? ? Hl Hnd']; subst.
  destruct (key_eqb (fst l) c) eqn:E.
  - f_equal. apply key_eqb_true in E.
    assert (Hno : forall l', In l' cd -> key_eqb (fst l') c = false).
    { intros l' Hl'. destruct (key_eqb (fst l') c) eqn:E'; [|reflexivity].
      apply key_eqb_true in E'. exfalso. apply Hl.
      replace (fst l) with (fst l') by congruence. apply in_map, Hl'. }
    clear -Hno. induction cd as [|l' cd IH]; simpl; [reflexivity|].
    rewrite (Hno l') by (simpl; auto).
    apply IH. intros x Hx. apply Hno. simpl. auto.
  - apply IH, Hnd'.
Qed.

(** X5. When no two community rows share an area (the aggregator's tables never
    do), the right join is a lookup: it returns one row per census record, in
    the order of the census table, with the community row of the same key
    beside it, or the NaN part when there is none. No census record is
    repeated and none is lost before [dropna]. *)
Theorem merge_right_is_lookup (community_data : Series labelled_row)
    (df_census : list census_row) :
  NoDup (index community_data) ->
  merge_right community_data df_census
  = map (fun r => {| left := find (fun l => key_eqb (fst l)
                                                    (Community_Area_Number r))
                                  community_data;
                     right := r |})
        df_census
  /\ map right (merge_right community_data df_census) = df_census
  /\ map right (dropna (merge_right community_data df_census))
     = filter (fun r => left_complete
                          (find (fun l => key_eqb (fst l)
                                                  (Community_Area_Number r))
                                community_data)
                        && right_complete r)
              df_census.
Proof.
  intros Hnd.
  assert (E : merge_right community_data df_census
              = map (fun r => {| left := find (fun l => key_eqb (fst l)
                                                    (Community_Area_Number r))
                                  community_data;
                                 right := r |})
                    df_census).
  { induction df_census as [|r rs IH]; [reflexivity|].
    change (merge_right community_data (r :: rs))
      with (match filter (fun l => key_eqb (fst l) (Community_Area_Number r))
                         community_data with
            | [] => [ {| left := None; right := r |} ]
            | matches => map (fun l => {| left := Some l; right := r |}) matches
            end ++ merge_right community_data rs).
    rewrite IH, (filter_key_find _ _ Hnd). simpl.
    destruct (find (fun l => key_eqb (fst l) (Community_Area_Number r))
                   community_data); reflexivity. }
  split; [exact E|]. rewrite E. split.
  - rewrite map_map. simpl. apply map_id.
  - unfold dropna. clear E. induction df_census as [|r rs IH]; simpl; [reflexivity|].
    destruct (left_complete _ && right_complete r); simpl; now rewrite IH.
Qed.

Lemma merge_right_is_lookup_witness :
  NoDup (index demo_labelled)
  /\ map (fun m => Community_Area_Number (right m))
         (merge_right demo_labelled demo_census)
     = [Some 1; Some 2; Some 3; Some 4]
  /\ map right (merge_right demo_labelled demo_census) = demo_census.
Proof.
  assert (Hnd : NoDup (index demo_labelled)).
  { simpl. repeat constructor; simpl; intuition discriminate. }
  split; [exact Hnd|]. split; [reflexivity|].
  exact (proj1 (proj2 (merge_right_is_lookup demo_labelled demo_census Hnd))).
Defined.

(** The rows that survive [dropna] after the join. *)
Lemma dropna_merge_rows (community_data : Series labelled_row)
    (df_census : list census_row) (m : merged_row) :
  In m (dropna (merge_right community_data df_census)) ->
  exists l r,
    m = {| left := Some l; right := r |}
    /\ In l community_data /\ In r df_census
    /\ Community_Area_Number r = Some (fst l).
Proof.
  unfold dropna. rewrite filter_In, merge_right_In, andb_true_iff.
  intros [(r & Hr & [[_ ->]|(l & Hl & ->)]) [Hc1 Hc2]]; simpl in *.
  - discriminate.
  - apply matches_In in Hl. exists l, r. tauto.
Qed.

(** ** From the incident records to the training table *)

(** [main], lines 137-164: the joined table the classifier is trained on. *)
Definition merged_df_of (kmeans : estimator) (df_crime : crime_frame (cell Z))
    (df_census : list census_row) : result (list merged_row) :=
  community_data <- community_data_of df_crime ;;
  community_data <- KMeans_clustering kmeans community_data ;;
  Ok (dropna (merge_right community_data df_census)).

(** X6. Every row of the training table stands for an area other than 0 that
    has qualifying incident records and a census record of its own; its
    crime count is the number of those records. [main] evaluates the
    classifier on exactly this table. *)
Theorem training_rows_have_incidents (kmeans : estimator)
    (recs : list incident) (df_census : list census_row)
    (merged_df : list merged_row) :
  merged_df_of kmeans (frame_of recs) df_census = Ok merged_df ->
  (forall permutation fit_predict,
     main permutation fit_predict kmeans (frame_of recs) df_census
     = logistic_regression permutation fit_predict merged_df)
  /\ (forall m, In m merged_df ->
        exists k row,
          left m = Some (k, row)
          /\ Community_Area_Number (right m) = Some k
          /\ In (right m) df_census
          /\ k <> 0
          /\ records_of recs k <> []
          /\ Crime_Count (stats row) = Some (List.length (records_of recs k))).
Proof.
  unfold merged_df_of. rewrite community_data_of_frame_of. simpl.
  set (cd := community_table _ _ _).
  destruct (KMeans_clustering kmeans cd) as [labelled|] eqn:Ek; simpl;
    [|discriminate].
  intros H. inversion H as [Hm]. clear H. split.
  - intros permutation fit_predict. unfold main.
    rewrite community_data_of_frame_of. simpl. fold cd. rewrite Ek. reflexivity.
  - intros m Hin.
    apply dropna_merge_rows in Hin.
    destruct Hin as (l & r & -> & Hl & Hr & Hk). destruct l as [k row].
    simpl in *. exists k, row.
    destruct (KMeans_clustering_inv _ _ _ Ek) as (fit & labels & _ & Hlen & _ & ->).
    apply in_map_iff in Hl. destruct Hl as ([[k0 row0] lab] & E & Hc).
    simpl in E. injection E as E1 E2. subst k0 row. simpl.
    apply in_combine_l in Hc. unfold cd, community_table in Hc.
    apply in_map_iff in Hc. destruct Hc as (k' & E & Hk').
    injection E as E1 E2. subst k' row0. simpl.
    apply (proj1 (sorted_areas_In _ _)) in Hk'.
    pose proof (proj1 (qualifying_area_In recs k) Hk') as (r0 & Hr0 & Hq & Ea).
    repeat split; try assumption.
    + intros ->. unfold qualifies in Hq. rewrite Ea in Hq. simpl in Hq.
      now rewrite andb_false_r in Hq.
    + intros E. assert (Hin : In r0 (records_of recs k))
        by (apply records_of_In; auto).
      rewrite E in Hin. destruct Hin.
    + now rewrite count_records.
Qed.

(** A fitted estimator for the two areas of [demo_incidents]. *)
Definition two_area_estimator : estimator :=
  fun _ => Ok {| labels_ := [1; 0]%nat; cluster_centers_ := demo_centroids |}.

Lemma training_rows_have_incidents_witness :
  exists merged_df,
    merged_df_of two_area_estimator (frame_of demo_incidents) demo_census
    = Ok merged_df
    /\ map (fun m => Community_Area_Number (right m)) merged_df
       = [Some 1; Some 3]
    /\ forall m, In m merged_df ->
         exists k row,
           left m = Some (k, row)
           /\ Community_Area_Number (right m) = Some k
           /\ In (right m) demo_census
           /\ k <> 0
           /\ records_of demo_incidents k <> []
           /\ Crime_Count (stats row)
              = Some (List.length (records_of demo_incidents k)).
Proof.
  eexists. split; [reflexivity|]. split; [reflexivity|].
  exact (proj2 (training_rows_have_incidents two_area_estimator demo_incidents
                  demo_census _ eq_refl)).
Defined.

(** ** The range and the fixed point of the normalisation *)

Lemma normalized_cell_inv (df : list indicators) (r : indicators)
    (c : indicator_name) (v : Q) :
  normalized_cell df r c = Some v ->
  exists x mn mx,
    r c = Some x
    /\ col_min (column df c) = Some mn
    /\ col_max (column df c) = Some mx
    /\ Qeq_bool (mx - mn) 0 = false
    /\ v = ((x - mn) / (mx - mn))%Q.
Proof.
  unfold normalized_cell, fdiv, fsub. intros H.
  destruct (r c) as [x|]; [|discriminate].
  destruct (col_min (column df c)) as [mn|]; [|discriminate].
  destruct (col_max (column df c)) as [mx|]; [|discriminate].
  destruct (Qeq_bool (mx - mn) 0) eqn:E; [discriminate|].
  inversion H. exists x, mn, mx. auto.
Qed.

Lemma normalized_cell_range (df : list indicators) (r : indicators)
    (c : indicator_name) (v : Q) :
  In r df -> normalized_cell df r c = Some v -> (0 <= v)%Q /\ (v <= 1)%Q.
Proof.
  intros Hr H.
  destruct (normalized_cell_inv _ _ _ _ H) as (x & mn & mx & Hx & Hmn & Hmx & Hd & ->).
  assert (Hin : In (Some x) (column df c)).
  { unfold column. rewrite <- Hx. apply (in_map (fun r => r c)), Hr. }
  pose proof (proj2 (col_min_spec _ _ Hmn) x Hin) as Hlo.
  pose proof (proj2 (col_max_spec _ _ Hmx) x Hin) as Hhi.
  apply Qeq_bool_neq in Hd.
  assert (Hlt : (mn < mx)%Q).
  { apply Qle_lt_or_eq in Hlo. apply Qle_lt_or_eq in Hhi.
    destruct Hlo as [Hlo|Hlo], Hhi as [Hhi|Hhi]; lra. }
  split; [apply Qle_shift_div_l; lra | apply Qle_shift_div_r; lra].
Qed.

(** X7. Whatever the table, a normalised cell is either NaN or a number between
    0 and 1: [normalize_df] never produces a value outside the unit interval
    (an infinity included), also when other cells of the column are NaN. *)
Theorem normalize_df_unit_interval (df : list indicators) (r : indicators)
    (c : indicator_name) (v : Q) :
  In r (normalize_df df) -> r c = Some v -> (0 <= v)%Q /\ (v <= 1)%Q.
Proof.
  rewrite normalize_df_rows. intros Hr Hv.
  apply in_map_iff in Hr. destruct Hr as (r0 & <- & Hr0).
  eapply normalized_cell_range; eassumption.
Qed.

(** A table with a gap: the middle row has no hardship index. *)
Definition gap_df : list indicators :=
  [ fun c => match c with HARDSHIP_INDEX => Some 12%Q | _ => Some 1%Q end;
    fun c => match c with HARDSHIP_INDEX => None | _ => Some 4%Q end;
    fun c => match c with HARDSHIP_INDEX => Some 40%Q | _ => Some 2%Q end ].

Lemma normalize_df_unit_interval_witness :
  column (normalize_df gap_df) PERCENT_OF_HOUSING_CROWDED
  = [Some ((1 - 1) / (4 - 1))%Q; Some ((4 - 1) / (4 - 1))%Q;
     Some ((2 - 1) / (4 - 1))%Q]
  /\ (0 <= (2 - 1) / (4 - 1))%Q /\ ((2 - 1) / (4 - 1) <= 1)%Q.
Proof.
  split; [reflexivity|].
  refine (normalize_df_unit_interval gap_df
            (normalized_cell gap_df
               (fun c => match c with
                         | HARDSHIP_INDEX => Some 40%Q
                         | _ => Some 2%Q
                         end))
            PERCENT_OF_HOUSING_CROWDED _ _ eq_refl).
  simpl. right. right. left. reflexivity.
Defined.

(** Equality of cells: both NaN, or the same number. *)
Definition cell_eq (a b : cell Q) : Prop :=
  match a, b with
  | Some x, Some y => (x == y)%Q
  | None, None => True
  | _, _ => False
  end.

Lemma normalized_column_In (df : list indicators) (c : indicator_name)
    (mn mx : Q) :
  col_min (column df c) = Some mn -> col_max (column df c) = Some mx ->
  Qeq_bool (mx - mn) 0 = false ->
  forall w, In (Some w) (column (normalize_df df) c)
            <-> exists x, In (Some x) (column df c)
                          /\ w = ((x - mn) / (mx - mn))%Q.
Proof.
  intros Hmn Hmx Hd w. unfold column. rewrite normalize_df_rows, map_map.
  rewrite !in_map_iff. split.
  - intros (r & E & Hr).
    destruct (normalized_cell_inv _ _ _ _ E) as (x & mn' & mx' & Hx & Hmn' & Hmx' & _ & ->).
    rewrite Hmn in Hmn'. rewrite Hmx in Hmx'.
    inversion Hmn'; inversion Hmx'; subst.
    exists x. split; [|reflexivity].
    apply in_map_iff. exists r. auto.
  - intros (x & Hx & ->). apply in_map_iff in Hx.
    destruct Hx as (r & Hx & Hr). exists r. split; [|exact Hr].
    unfold normalized_cell. rewrite Hx, Hmn, Hmx. simpl. now rewrite Hd.
Qed.

Lemma normalized_cell_idempotent (df : list indicators) (r : indicators)
    (c : indicator_name) :
  In r df ->
  cell_eq (normalized_cell (normalize_df df) (normalized_cell df r) c)
          (normalized_cell df r c).
Proof.
  intros Hr.
  destruct (normalized_cell df r c) as [v|] eqn:E.
  - destruct (normalized_cell_inv _ _ _ _ E) as (x & mn & mx & Hx & Hmn & Hmx & Hd & Ev).
    pose proof (normalized_column_In df c mn mx Hmn Hmx Hd) as Hcol.
    assert (Hin : In (Some x) (column df c)).
    { unfold column. rewrite <- Hx. apply (in_map (fun r => r c)), Hr. }
    assert (Hv : In (Some v) (column (normalize_df df) c)).
    { apply Hcol. exists x. auto. }
    pose proof (Qeq_bool_neq _ _ Hd) as Hne.
    pose proof (col_min_spec _ _ Hmn) as [Hmn_in Hmn_le].
    pose proof (col_max_spec _ _ Hmx) as [Hmx_in Hmx_le].
    assert (Hlt : (mn < mx)%Q).
    { pose proof (Hmn_le mx Hmx_in) as H. apply Qle_lt_or_eq in H.
      destruct H as [H|H]; [exact H | lra]. }
    destruct (col_min_some _ _ Hv) as (mn' & Hmn').
    destruct (col_max_some _ _ Hv) as (mx' & Hmx').
    pose proof (col_min_spec _ _ Hmn') as [Hmn'_in Hmn'_le].
    pose proof (col_max_spec _ _ Hmx') as [Hmx'_in Hmx'_le].
    assert (E0 : (mn' == 0)%Q).
    { apply Hcol in Hmn'_in. destruct Hmn'_in as (x1 & Hx1 & ->).
      apply Qle_antisym.
      - assert (H0 : In (Some ((mn - mn) / (mx - mn))%Q) (column (normalize_df df) c))
          by (apply Hcol; eauto).
        apply Hmn'_le in H0. eapply Qle_trans; [exact H0|].
        apply Qle_shift_div_r; lra.
      - apply Qle_shift_div_l; [lra|]. pose proof (Hmn_le x1 Hx1). lra. }
    assert (E1 : (mx' == 1)%Q).
    { apply Hcol in Hmx'_in. destruct Hmx'_in as (x1 & Hx1 & ->).
      apply Qle_antisym.
      - apply Qle_shift_div_r; [lra|]. pose proof (Hmx_le x1 Hx1). lra.
      - assert (H1 : In (Some ((mx - mn) / (mx - mn))%Q) (column (normalize_df df) c))
          by (apply Hcol; eauto).
        apply Hmx'_le in H1. eapply Qle_trans; [|exact H1].
        apply Qle_shift_div_l; lra. }
    unfold normalized_cell at 1. rewrite E, Hmn', Hmx'. simpl.
    destruct (Qeq_bool (mx' - mn') 0) eqn:Hd'.
    + apply Qeq_bool_iff in Hd'. lra.
    + simpl. rewrite E0, E1. field.
  - unfold normalized_cell at 1. rewrite E. reflexivity.
Qed.

(** X8. Normalising a normalised table changes nothing, cell by cell: a column
    that was not constant has minimum 0 and maximum 1 after the first pass,
    and a NaN stays a NaN. *)
Theorem normalize_df_idempotent (df : list indicators) (i : nat)
    (r1 r2 : indicators) (c : indicator_name) :
  nth_error (normalize_df df) i = Some r1 ->
  nth_error (normalize_df (normalize_df df)) i = Some r2 ->
  cell_eq (r2 c) (r1 c).
Proof.
  rewrite (normalize_df_nth (normalize_df df)), (normalize_df_nth df).
  destruct (nth_error df i) as [r|] eqn:E; simpl; [|discriminate].
  intros H1 H2. inversion H1; inversion H2; subst.
  apply normalized_cell_idempotent. eapply nth_error_In, E.
Qed.

Lemma normalize_df_idempotent_witness :
  exists r1 r2,
    nth_error (normalize_df gap_df) 2 = Some r1
    /\ nth_error (normalize_df (normalize_df gap_df)) 2 = Some r2
    /\ r1 HARDSHIP_INDEX = Some ((40 - 12) / (40 - 12))%Q
    /\ cell_eq (r2 HARDSHIP_INDEX) (r1 HARDSHIP_INDEX).
Proof.
  eexists. eexists. split; [reflexivity|]. split; [reflexivity|].
  split; [reflexivity|].
  exact (normalize_df_idempotent gap_df 2 _ _ HARDSHIP_INDEX eq_refl eq_refl).
Defined.

(** ** The split loses no row *)

Lemma iloc_spec {A : Type} (X : list A) (idx : list nat) (rows : list A) :
  iloc X idx = Ok rows -> map Some rows = map (nth_error X) idx.
Proof.
  revert rows. induction idx as [|i idx IH]; intros rows H; simpl in H.
  - inversion H. reflexivity.
  - destruct (nth_error X i) as [a|] eqn:E; [|discriminate].
    destruct (iloc X idx) as [rest|]; simpl in H; [|discriminate].
    inversion H; subst. simpl. rewrite E. f_equal. apply IH. reflexivity.
Qed.

Lemma nth_error_combine {A B : Type} (X : list A) (y : list B) (i : nat) :
  nth_error (combine X y) i
  = match nth_error X i, nth_error y i with
    | Some a, Some b => Some (a, b)
    | _, _ => None
    end.
Proof.
  revert y i. induction X as [|a X IH]; intros [|b y] [|i]; simpl;
    try reflexivity.
  - destruct (nth_error X i); reflexivity.
  - apply IH.
Qed.

Lemma combine_rows {A B : Type} (X : list A) (y : list B) (idx : list nat)
    (xs : list A) (ys : list B) :
  map Some xs = map (nth_error X) idx ->
  map Some ys = map (nth_error y) idx ->
  map Some (combine xs ys) = map (nth_error (combine X y)) idx.
Proof.
  revert xs ys. induction idx as [|i idx IH]; intros [|a xs] [|b ys] H1 H2;
    simpl in *; try discriminate; [reflexivity|].
  injection H1 as E1 H1. injection H2 as E2 H2.
  rewrite nth_error_combine, <- E1, <- E2. f_equal. apply IH; assumption.
Qed.

Lemma map_nth_error_seq {A : Type} (l : list A) :
  map (nth_error l) (seq 0 (List.length l)) = map Some l.
Proof.
  induction l as [|a l IH]; simpl; [reflexivity|].
  f_equal. rewrite <- seq_shift, map_map. simpl. exact IH.
Qed.

Lemma map_Some_inj {A : Type} (l1 l2 : list A) :
  map Some l1 = map Some l2 -> l1 = l2.
Proof.
  revert l2. induction l1 as [|a l1 IH]; intros [|b l2] H; simpl in H;
    try discriminate; [reflexivity|].
  injection H as -> H. f_equal. apply IH, H.
Qed.

Lemma Permutation_map_Some {A : Type} (l1 l2 : list A) :
  Permutation (map Some l1) (map Some l2) -> Permutation l1 l2.
Proof.
  intros H. apply Permutation_map_inv in H.
  destruct H as (l3 & E & Hp). apply map_Some_inj in E. subst l3.
  apply Permutation_sym, Hp.
Qed.

(** X9. With a shuffle that is a permutation of the row numbers, the split
    loses no row, repeats none, and keeps every target beside its features:
    the test and training rows together are the rows of the table. *)
Theorem train_test_split_partitions {A B : Type}
    (permutation : nat -> list nat) (X : list A) (y : list B) (s : split A B) :
  Permutation (permutation (List.length X)) (seq 0 (List.length X)) ->
  train_test_split permutation X y = Ok s ->
  Permutation (combine (X_test s ++ X_train s) (y_test s ++ y_train s))
              (combine X y)
  /\ Permutation (X_test s ++ X_train s) X
  /\ Permutation (y_test s ++ y_train s) y
  /\ List.length (X_test s) = List.length (y_test s)
  /\ List.length (X_train s) = List.length (y_train s)
  /\ X_train s <> [].
Proof.
  intros Hp H. unfold train_test_split in H.
  destruct (Nat.eqb_spec (List.length y) (List.length X)) as [Hy|]; simpl in H;
    [|discriminate].
  set (n := List.length X) in *. set (k := n_test_of n) in *.
  destruct (Nat.eqb_spec (n - k) 0) as [|Hk]; [discriminate|].
  destruct (iloc X (firstn (n - k) (skipn k (permutation n)))) as [Xtr|] eqn:E1;
    simpl in H; [|discriminate].
  destruct (iloc X (firstn k (permutation n))) as [Xte|] eqn:E2;
    simpl in H; [|discriminate].
  destruct (iloc y (firstn (n - k) (skipn k (permutation n)))) as [ytr|] eqn:E3;
    simpl in H; [|discriminate].
  destruct (iloc y (firstn k (permutation n))) as [yte|] eqn:E4;
    simpl in H; [|discriminate].
  inversion H; subst s. simpl. clear H.
  assert (Hlen : List.length (permutation n) = n).
  { rewrite (Permutation_length Hp). apply length_seq. }
  assert (Hidx : firstn k (permutation n)
                 ++ firstn (n - k) (skipn k (permutation n)) = permutation n).
  { rewrite (firstn_all2 (n := n - k)); [apply firstn_skipn|].
    rewrite length_skipn. lia. }
  apply iloc_spec in E1, E2, E3, E4.
  assert (HX : map Some (Xte ++ Xtr) = map (nth_error X) (permutation n))
    by (rewrite <- Hidx, !map_app; congruence).
  assert (Hyy : map Some (yte ++ ytr) = map (nth_error y) (permutation n))
    by (rewrite <- Hidx, !map_app; congruence).
  assert (Hperm : forall (C : Type) (l : list C), List.length l = n ->
            Permutation (map (nth_error l) (permutation n)) (map Some l)).
  { intros C l Hl. rewrite <- map_nth_error_seq, Hl.
    apply Permutation_map, Hp. }
  split; [|split; [|split; [|split]]].
  - apply Permutation_map_Some.
    rewrite (combine_rows X y (permutation n) _ _ HX Hyy).
    apply Hperm. rewrite length_combine. fold n. lia.
  - apply Permutation_map_Some. rewrite HX. apply Hperm. reflexivity.
  - apply Permutation_map_Some. rewrite Hyy. apply Hperm. exact Hy.
  - apply (f_equal (@List.length _)) in E2, E4.
    rewrite !length_map in E2, E4. congruence.
  - split.
    + apply (f_equal (@List.length _)) in E1, E3.
      rewrite !length_map in E1, E3. congruence.
    + apply (f_equal (@List.length _)) in E1.
      rewrite !length_map, length_firstn, length_skipn in E1.
      destruct Xtr; [simpl in E1; lia | discriminate].
Qed.

Lemma train_test_split_partitions_witness :
  exists s,
    train_test_split (fun n => rev (seq 0 n)) [10; 20; 30; 40; 50; 60]%nat
                     [true; false; true; false; true; false]
    = Ok s
    /\ X_test s = [60; 50]%nat /\ y_test s = [false; true]
    /\ Permutation (X_test s ++ X_train s) [10; 20; 30; 40; 50; 60]%nat.
Proof.
  eexists. split; [reflexivity|]. split; [reflexivity|]. split; [reflexivity|].
  exact (proj1 (proj2 (train_test_split_partitions (fun n => rev (seq 0 n))
                         [10; 20; 30; 40; 50; 60]%nat
                         [true; false; true; false; true; false] _
                         (Permutation_sym (Permutation_rev _)) eq_refl))).
Defined.

(** * The bar chart of the crime levels

    [plot_crime_level] draws one bar per crime level, as tall as
    [value_counts] says; the model is the list of the bars, left to right. *)

Section Grouping.
Context {K : Type} (eqb : K -> K -> bool).

(** The distinct values, by first appearance. *)
Fixpoint distinct (xs : list K) : list K :=
  match xs with
  | [] => []
  | x :: xs' => x :: filter (fun y => negb (eqb y x)) (distinct xs')
  end.

Definition occurrences (k : K) (xs : list K) : nat :=
  List.length (filter (eqb k) xs).

Hypothesis eqb_eq : forall a b, eqb a b = true <-> a = b.

Lemma eqb_same (a : K) : eqb a a = true.
Proof. now apply eqb_eq. Qed.

Lemma eqb_differ (a b : K) : a <> b -> eqb a b = false.
Proof.
  intros H. destruct (eqb a b) eqn:E; [|reflexivity].
  apply eqb_eq in E. contradiction.
Qed.

Lemma distinct_In (x : K) (xs : list K) : In x (distinct xs) <-> In x xs.
Proof.
  induction xs as [|y xs IH]; simpl; [tauto|].
  rewrite filter_In, IH, negb_true_iff. split.
  - intros [H|[H _]]; auto.
  - intros [H|H]; [auto|].
    destruct (eqb x y) eqn:E; [left; symmetry; now apply eqb_eq | auto].
Qed.

Lemma distinct_NoDup (xs : list K) : NoDup (distinct xs).
Proof.
  induction xs as [|y xs IH]; simpl; constructor.
  - rewrite filter_In, negb_true_iff, eqb_same. intros [_ H]. discriminate.
  - apply NoDup_filter, IH.
Qed.

Lemma sum_one_hit (x : K) (keys : list K) :
  NoDup keys -> In x keys ->
  list_sum (map (fun k => if eqb k x then 1%nat else 0%nat) keys) = 1%nat.
Proof.
  induction 1 as [|k keys Hk Hnd IH]; intros Hx; [destruct Hx|].
  simpl. destruct Hx as [->|Hx].
  - rewrite eqb_same. f_equal.
    clear IH Hnd. induction keys as [|j keys IH]; [reflexivity|].
    simpl. rewrite eqb_differ.
    + apply IH. intros H. apply Hk. simpl. auto.
    + intros ->. apply Hk. simpl. auto.
  - rewrite eqb_differ; [auto|]. intros ->. contradiction.
Qed.

Lemma sum_occurrences (keys xs : list K) :
  NoDup keys -> (forall x, In x xs -> In x keys) ->
  list_sum (map (fun k => occurrences k xs) keys) = List.length xs.
Proof.
  intros Hnd. induction xs as [|x xs IH]; intros Hin.
  - clear Hnd Hin. induction keys as [|k keys IHk]; [reflexivity|].
    simpl. exact IHk.
  - assert (Hstep : forall l,
              list_sum (map (fun k => occurrences k (x :: xs)) l)
              = (list_sum (map (fun k => if eqb k x then 1%nat else 0%nat) l)
                 + list_sum (map (fun k => occurrences k xs) l))%nat).
    { intros l. induction l as [|a l IHl]; simpl; [reflexivity|].
      rewrite IHl. unfold occurrences. simpl.
      destruct (eqb a x); simpl; lia. }
    rewrite Hstep, sum_one_hit, IH.
    + reflexivity.
    + intros y Hy. apply Hin. simpl. auto.
    + exact Hnd.
    + apply Hin. simpl. auto.
Qed.

Lemma occurrences_pos (k : K) (xs : list K) :
  In k xs <-> (0 < occurrences k xs)%nat.
Proof.
  unfold occurrences. induction xs as [|x xs IH]; simpl; [lia|].
  destruct (eqb k x) eqn:E; simpl.
  - apply eqb_eq in E. split; [lia | auto].
  - rewrite <- IH. split; [|auto].
    intros [->|H]; [|exact H]. rewrite eqb_same in E. discriminate.
Qed.
End Grouping.

(** The values of a column that are not NaN. *)
Definition dropna_values {A : Type} (col : list (cell A)) : list A :=
  flat_map (fun c => match c with Some a => [a] | None => [] end) col.

(** [series.value_counts()] on a column of strings: NaN is not counted, the
    most frequent value comes first. *)
Definition value_counts_str (col : list (cell string)) : list (string * nat) :=
  let values := dropna_values col in
  isort (fun a b => (snd b <=? snd a)%nat)
        (map (fun k => (k, occurrences String.eqb k values))
             (distinct String.eqb values)).

(** The bars of [plot_crime_level]: a crime level and the height of its bar,
    which is also the number written on top of it. *)
Definition plot_crime_level (community_data : Series labelled_row)
  : list (string * nat) :=
  value_counts_str (map (fun r => Crime_Level (snd r)) community_data).

Definition has_level (level : string) (r : Z * labelled_row) : bool :=
  match Crime_Level (snd r) with
  | Some s => String.eqb level s
  | None => false
  end.

Lemma occurrences_levels (level : string) (community_data : Series labelled_row) :
  occurrences String.eqb level
    (dropna_values (map (fun r => Crime_Level (snd r)) community_data))
  = List.length (filter (has_level level) community_data).
Proof.
  unfold occurrences, has_level.
  induction community_data as [|r cd IH]; simpl; [reflexivity|].
  destruct (Crime_Level (snd r)) as [s|]; simpl; [|exact IH].
  destruct (String.eqb level s); simpl; now rewrite IH.
Qed.

Lemma dropna_values_length {A : Type} (col : list (cell A)) :
  List.length (dropna_values col) = List.length (filter notna col).
Proof.
  induction col as [|[a|] col IH]; simpl; auto.
Qed.

(** X10. There is one bar per crime level that some community has, and none for
    a level nobody has; a bar is as tall as the number of communities of its
    level; the bars add up to the number of communities with a level; and
    they go from the tallest to the shortest. *)
Theorem plot_crime_level_bars (community_data : Series labelled_row) :
  NoDup (map fst (plot_crime_level community_data))
  /\ (forall level n,
        In (level, n) (plot_crime_level community_data) <->
        n = List.length (filter (has_level level) community_data)
        /\ (0 < n)%nat)
  /\ list_sum (map snd (plot_crime_level community_data))
     = List.length (filter (fun r => notna (Crime_Level (snd r))) community_data)
  /\ StronglySorted (fun a b => (snd b <= snd a)%nat)
                    (plot_crime_level community_data).
Proof.
  unfold plot_crime_level, value_counts_str.
  set (values := dropna_values (map (fun r => Crime_Level (snd r)) community_data)).
  set (f := fun k => (k, occurrences String.eqb k values)).
  set (le := fun a b : string * nat => (snd b <=? snd a)%nat).
  pose proof (isort_perm le (map f (distinct String.eqb values))) as Hp.
  assert (Hocc : forall level,
            occurrences String.eqb level values
            = List.length (filter (has_level level) community_data))
    by (intros level; apply occurrences_levels).
  split; [|split; [|split]].
  - eapply Permutation_NoDup;
      [apply Permutation_map, Permutation_sym, Hp|].
    rewrite map_map. simpl. rewrite map_id.
    apply (distinct_NoDup String.eqb String.eqb_eq).
  - intros level n. rewrite isort_In. unfold f. rewrite in_map_iff. split.
    + intros (k & E & Hk). injection E as -> <-.
      apply (proj1 (distinct_In String.eqb String.eqb_eq _ _)) in Hk.
      apply (proj1 (occurrences_pos String.eqb String.eqb_eq _ _)) in Hk.
      split; [apply Hocc | exact Hk].
    + intros [-> Hpos]. exists level. rewrite Hocc. split; [reflexivity|].
      apply (proj2 (distinct_In String.eqb String.eqb_eq _ _)).
      apply (proj2 (occurrences_pos String.eqb String.eqb_eq _ _)).
      now rewrite Hocc.
  - rewrite (Permutation_list_sum (Permutation_map snd Hp)).
    rewrite map_map. simpl.
    rewrite (sum_occurrences String.eqb String.eqb_eq).
    + unfold values. rewrite dropna_values_length, filter_map_comm, length_map.
      reflexivity.
    + apply (distinct_NoDup String.eqb String.eqb_eq).
    + intros x Hx. now apply (distinct_In String.eqb String.eqb_eq).
  - pose proof (isort_sorted le) as Hs.
    assert (Htot : forall x y, le x y = true \/ le y x = true).
    { intros x y. unfold le. rewrite !Nat.leb_le. lia. }
    assert (Htr : forall x y z, le x y = true -> le y z = true -> le x z = true).
    { intros x y z. unfold le. rewrite !Nat.leb_le. lia. }
    specialize (Hs Htot Htr (map f (distinct String.eqb values))).
    clear Hp.
    induction Hs as [|a l Hl IH Ha]; [constructor|].
    constructor; [exact IH|].
    rewrite Forall_forall in *. intros b Hb.
    apply Nat.leb_le. exact (Ha b Hb).
Qed.

(** * Arrest rates by crime type (question_3)

    [prepare_data] and [calculate_arrest_rates] of [question_3-checkpoint.py].
    The table has the columns Primary Type (strings, with gaps) and Arrest
    (booleans, with gaps); as above a column the file lacks is [None]. *)

Module Question3.

Record frame : Type := mk_frame {
  Primary_Type : option (list (cell string));
  Arrest : option (list (cell bool))
}.

(** [1 if x else 0]: Python's truth value of a cell. [False] is the only
    falsy one; the NaN of a gap is a float other than 0, hence truthy. *)
Definition one_if (x : cell bool) : Z :=
  match x with
  | Some false => 0
  | Some true => 1
  | None => 1
  end.

(** [x != 'NON-CRIMINAL'] on a cell: a NaN differs from every string. *)
Definition ne_str (s : string) (c : cell string) : bool :=
  match c with
  | Some t => negb (String.eqb t s)
  | None => true
  end.

(** The prepared table: the two columns, row by row. *)
Record prepared : Type := mk_prepared {
  types : list (cell string);
  arrests : list Z
}.

Definition prepare_data (df : frame) : result prepared :=
  arrest <- getitem "Arrest" (Arrest df) ;;
  let arrest := map one_if arrest in
  (* Selects only the Primary Type and Arrest *)
  ptype <- match Primary_Type df with
           | Some v => Ok v
           | None => Raise (KeyError "['Primary Type'] not in index")
           end ;;
  (* Removes rows where primary type is non-criminal *)
  let mask := map (ne_str "NON-CRIMINAL") ptype in
  let ptype := take_mask mask ptype in
  let arrest := take_mask mask arrest in
  (* The rows with missing values are dropped. *)
  let mask := map notna ptype in
  Ok {| types := take_mask mask ptype; arrests := take_mask mask arrest |}.

(** The values of the rows whose key is [k]. *)
Definition group_str {V : Type} (keys : list (cell string)) (vals : list V)
    (k : string) : list V :=
  map snd (filter (fun p => match fst p with
                            | Some t => String.eqb t k
                            | None => false
                            end)
                  (combine keys vals)).

(** [mean()] of a column of integers. *)
Definition mean_int (vs : list Z) : cell Q :=
  match vs with
  | [] => None
  | _ :: _ => Some (fold_right Z.add 0 vs # Pos.of_nat (List.length vs))
  end.

(** [df.groupby('Primary Type')['Arrest'].mean()]: one entry per crime type,
    in the order of the types. *)
Definition calculate_arrest_rates (df : prepared) : list (string * cell Q) :=
  map (fun k => (k, mean_int (group_str (types df) (arrests df) k)))
      (isort String.leb (distinct String.eqb (dropna_values (types df)))).

(** [analyze_arrest_rates], without the print and the plot. *)
Definition analyze_arrest_rates (df : frame) : result (list (string * cell Q)) :=
  df_prepared <- prepare_data df ;;
  Ok (calculate_arrest_rates df_prepared).

Record crime : Type := mk_crime {
  primary_type : cell string;
  arrest : cell bool
}.

Definition frame_of (rows : list crime) : frame :=
  {| Primary_Type := Some (map primary_type rows);
     Arrest := Some (map arrest rows) |}.

(** A row is kept when its type is there and is not NON-CRIMINAL. *)
Definition kept (r : crime) : bool :=
  match primary_type r with
  | Some t => negb (String.eqb t "NON-CRIMINAL")
  | None => false
  end.

Definition has_type (k : string) (r : crime) : bool :=
  match primary_type r with
  | Some t => String.eqb t k
  | None => false
  end.

Lemma prepare_data_frame_of (rows : list crime) :
  prepare_data (frame_of rows)
  = Ok {| types := map primary_type (filter kept rows);
          arrests := map (fun r => one_if (arrest r)) (filter kept rows) |}.
Proof.
  unfold prepare_data, frame_of. simpl.
  rewrite !map_map.
  rewrite !(take_mask_map (fun r => ne_str "NON-CRIMINAL" (primary_type r))).
  rewrite !map_map.
  rewrite !(take_mask_map (fun r => notna (primary_type r))).
  rewrite !filter_filter.
  assert (E : filter (fun x => ne_str "NON-CRIMINAL" (primary_type x)
                               && notna (primary_type x)) rows
              = filter kept rows).
  { apply filter_ext. intros r. unfold kept, ne_str, notna.
    destruct (primary_type r); simpl; [now rewrite andb_true_r | reflexivity]. }
  now rewrite E.
Qed.

(** X11. [prepare_data] counts a missing Arrest as an arrest, because the cell is
    turned into 0 or 1 before the rows with gaps are dropped: the only rows
    it drops are those whose crime type is missing or is NON-CRIMINAL, and
    the kept rows stay in order. Without the Arrest column it raises
    KeyError. *)
Theorem prepare_data_keeps_typed_rows (rows : list crime) :
  exists df,
    prepare_data (frame_of rows) = Ok df
    /\ types df = map primary_type (filter kept rows)
    /\ arrests df = map (fun r => one_if (arrest r)) (filter kept rows)
    /\ ~ In None (types df)
    /\ ~ In (Some "NON-CRIMINAL"%string) (types df)
    /\ Forall (fun a => a = 0 \/ a = 1) (arrests df)
    /\ (forall r, In r rows -> kept r = true -> arrest r = None ->
          In r (filter kept rows) /\ one_if (arrest r) = 1)
    /\ prepare_data {| Primary_Type := Some (map primary_type rows);
                       Arrest := None |}
       = Raise (KeyError "Arrest").
Proof.
  eexists. split; [apply prepare_data_frame_of|]. simpl.
  split; [reflexivity|]. split; [reflexivity|].
  split; [|split; [|split; [|split]]].
  - intros H. apply in_map_iff in H. destruct H as (r & E & Hr).
    apply filter_In in Hr. destruct Hr as [_ Hk]. unfold kept in Hk.
    rewrite E in Hk. discriminate.
  - intros H. apply in_map_iff in H. destruct H as (r & E & Hr).
    apply filter_In in Hr. destruct Hr as [_ Hk]. unfold kept in Hk.
    rewrite E in Hk. discriminate.
  - rewrite Forall_forall. intros a Ha. apply in_map_iff in Ha.
    destruct Ha as (r & <- & _). destruct (arrest r) as [[|]|]; simpl; auto.
  - intros r Hr Hk Ha. split; [apply filter_In; auto|]. now rewrite Ha.
  - reflexivity.
Qed.

Lemma group_str_map {A V : Type} (key : A -> cell string) (f : A -> V)
    (l : list A) (k : string) :
  group_str (map key l) (map f l) k
  = map f (filter (fun r => match key r with
                            | Some t => String.eqb t k
                            | None => false
                            end) l).
Proof.
  unfold group_str. induction l as [|x l IH]; simpl; [reflexivity|].
  destruct (key x) as [t|]; simpl; [|exact IH].
  destruct (String.eqb t k); simpl; now rewrite IH.
Qed.

Lemma sum_one_if (rs : list crime) :
  fold_right Z.add 0 (map (fun r => one_if (arrest r)) rs)
  = Z.of_nat (List.length (filter (fun r => negb (one_if (arrest r) =? 0)) rs)).
Proof.
  induction rs as [|r rs IH]; [reflexivity|].
  cbn [map fold_right filter]. rewrite IH.
  destruct (arrest r) as [[|]|]; cbn [one_if Z.eqb negb List.length]; lia.
Qed.

(** The rows of crime type [k] among the kept ones. *)
Definition rows_of (rows : list crime) (k : string) : list crime :=
  filter (has_type k) (filter kept rows).

(** X12. The arrest rate of every crime type that has a kept row is the share of
    its rows whose Arrest is not [False], a number between 0 and 1; no type
    comes twice, NON-CRIMINAL has no entry, and a type without rows has
    none either. *)
Theorem arrest_rates_are_shares (rows : list crime) :
  exists rates,
    analyze_arrest_rates (frame_of rows) = Ok rates
    /\ NoDup (map fst rates)
    /\ ~ In "NON-CRIMINAL"%string (map fst rates)
    /\ (forall k, In k (map fst rates) <-> rows_of rows k <> [])
    /\ (forall k rate, In (k, rate) rates ->
          exists q,
            rate = Some q
            /\ q = (Z.of_nat (List.length
                      (filter (fun r => negb (one_if (arrest r) =? 0))
                              (rows_of rows k)))
                    # Pos.of_nat (List.length (rows_of rows k)))
            /\ (0 <= q)%Q /\ (q <= 1)%Q).
Proof.
  unfold analyze_arrest_rates. rewrite prepare_data_frame_of. simpl.
  eexists. split; [reflexivity|].
  unfold calculate_arrest_rates. simpl.
  set (ks := isort String.leb
               (distinct String.eqb
                  (dropna_values (map primary_type (filter kept rows))))).
  assert (Hks : forall k, In k ks <-> rows_of rows k <> []).
  { intros k. unfold ks. rewrite isort_In.
    rewrite (distinct_In String.eqb String.eqb_eq).
    unfold dropna_values. rewrite in_flat_map. unfold rows_of. split.
    - intros (c & Hc & Hk). apply in_map_iff in Hc.
      destruct Hc as (r & <- & Hr). intros E.
      assert (Hin : In r (filter (has_type k) (filter kept rows))).
      { apply filter_In. split; [exact Hr|]. unfold has_type.
        destruct (primary_type r) as [t|]; [|destruct Hk].
        destruct Hk as [<-|[]]. apply String.eqb_refl. }
      rewrite E in Hin. destruct Hin.
    - intros Hne. destruct (filter (has_type k) (filter kept rows)) as [|r rs] eqn:E;
        [congruence|].
      assert (Hin : In r (filter (has_type k) (filter kept rows)))
        by (rewrite E; simpl; auto).
      apply filter_In in Hin. destruct Hin as [Hr Ht]. unfold has_type in Ht.
      exists (primary_type r). split; [apply in_map, Hr|].
      destruct (primary_type r) as [t|]; [|discriminate].
      apply String.eqb_eq in Ht. subst. simpl. auto. }
  assert (Hfst : map fst (map (fun k => (k, mean_int
                    (group_str (map primary_type (filter kept rows))
                       (map (fun r => one_if (arrest r)) (filter kept rows)) k)))
                  ks) = ks)
    by (rewrite map_map; simpl; apply map_id).
  rewrite Hfst. split; [|split; [|split]].
  - unfold ks. eapply Permutation_NoDup; [apply Permutation_sym, isort_perm|].
    apply (distinct_NoDup String.eqb String.eqb_eq).
  - intros H. apply Hks in H. apply H. unfold rows_of.
    rewrite filter_filter.
    assert (E : forall l, filter (fun x => kept x && has_type "NON-CRIMINAL" x) l = []).
    { intros l. induction l as [|r l IH]; simpl; [reflexivity|].
      unfold kept, has_type. destruct (primary_type r) as [t|]; simpl; [|exact IH].
      destruct (String.eqb t "NON-CRIMINAL"); simpl; exact IH. }
    apply E.
  - exact Hks.
  - intros k rate Hin. apply in_map_iff in Hin.
    destruct Hin as (k' & E & Hk). injection E as -> <-.
    apply Hks in Hk. rewrite group_str_map.
    fold (has_type k). fold (rows_of rows k).
    destruct (rows_of rows k) as [|r rs] eqn:Er; [congruence|].
    rewrite <- Er. clear Hk.
    assert (Hm : map (fun r => one_if (arrest r)) (rows_of rows k) <> [])
      by (rewrite Er; discriminate).
    unfold mean_int.
    destruct (map (fun r => one_if (arrest r)) (rows_of rows k)) as [|a l] eqn:Em;
      [congruence|].
    rewrite <- Em, sum_one_if, length_map. eexists. split; [reflexivity|].
    split; [reflexivity|].
    unfold Qle. simpl.
    assert (Hn : List.length (rows_of rows k) <> 0%nat) by (rewrite Er; discriminate).
    assert (Epos : Z.pos (Pos.of_nat (List.length (rows_of rows k)))
                   = Z.of_nat (List.length (rows_of rows k))).
    { rewrite <- positive_nat_Z, Nat2Pos.id; [reflexivity | exact Hn]. }
    rewrite Epos.
    pose proof (filter_length_le (fun r => negb (one_if (arrest r) =? 0))
                  (rows_of rows k)).
    lia.
Qed.

End Question3.

(** * Loading one year in chunks (question_2)

    [filter_chunk_data_by_year] of [question_2-checkpoint.py]. Reading the
    file is not modelled: [chunks] is what [pd.read_csv(csv_path,
    chunksize=chunk_size)] yields, one list of rows per chunk, each row with
    its Year cell and the rest of its columns. *)

Module Question2.


Section Rows.
Context {R : Type}.





End Rows.


(** [gridsize = max(10, min(50, len(specific_crimes) // 200))] in
    [plot_arrest_locations_by_crime_type]. *)
Definition gridsize (n_crimes : Z) : Z :=
  Z.max 10 (Z.min 50 (n_crimes / 200)).

(** X14. The grid of the hexagon map always has between 10 and 50 cells a side:
    10 up to 2199 crimes, then one more per 200 crimes, and 50 from 10000
    crimes on; more crimes never give a coarser grid. *)
Theorem gridsize_bounds (n : Z) :
  10 <= gridsize n <= 50
  /\ (n < 2200 -> gridsize n = 10)
  /\ (2200 <= n < 10000 -> gridsize n = n / 200)
  /\ (10000 <= n -> gridsize n = 50)
  /\ (forall m, n <= m -> gridsize n <= gridsize m).
Proof.
  unfold gridsize.
  pose proof (Z.div_mod n 200 ltac:(lia)) as E.
  pose proof (Z.mod_pos_bound n 200 ltac:(lia)) as U.
  split; [lia|]. split; [lia|]. split; [lia|]. split; [lia|].
  intros m Hm.
  pose proof (Z.div_le_mono n m 200 ltac:(lia) Hm). lia.
Qed.

End Question2.

(** * Crimes by day of the week (question_1)

    [plot_crime_trend_by_day_of_week] and
    [plot_crime_trend_by_day_of_week_years] of [question_1-checkpoint.py],
    up to the table that is plotted. The Date column is taken as
    [pd.to_datetime] returns it: a cell is a timestamp, seen through the
    accessors the script uses ([.dt.year], [.dt.month], [.dt.day_name()]),
    or NaT ([None]). *)

Module Question1.

Inductive weekday : Type :=
| Monday | Tuesday | Wednesday | Thursday | Friday | Saturday | Sunday.

Record stamp : Type := mk_stamp {
  dt_year : Z;
  dt_month : Z;
  dt_day_name : weekday
}.

(** The list every table is reindexed by. *)
Definition week : list weekday :=
  [Monday; Tuesday; Wednesday; Thursday; Friday; Saturday; Sunday].

Definition weekday_eqb (a b : weekday) : bool :=
  match a, b with
  | Monday, Monday | Tuesday, Tuesday | Wednesday, Wednesday
  | Thursday, Thursday | Friday, Friday | Saturday, Saturday
  | Sunday, Sunday => true
  | _, _ => false
  end.

Lemma weekday_eqb_eq (a b : weekday) : weekday_eqb a b = true <-> a = b.
Proof. destruct a, b; simpl; split; intros H; congruence. Qed.

(** [df['Date'].dt.year == year]: the year of NaT is NaN, equal to nothing. *)
Definition in_year (year : Z) (d : cell stamp) : bool :=
  match d with
  | Some s => dt_year s =? year
  | None => false
  end.

(** [df['Date'].dt.year.isin(years)] *)
Definition in_years (years : list Z) (d : cell stamp) : bool :=
  match d with
  | Some s => existsb (Z.eqb (dt_year s)) years
  | None => false
  end.

(** [df.groupby('DayOfWeek').size()]: one entry per day name that occurs.
    The order of the entries is not kept: [reindex] follows. *)
Definition groupby_day_size (names : list weekday) : list (weekday * nat) :=
  map (fun k => (k, occurrences weekday_eqb k names))
      (distinct weekday_eqb names).

(** [series.reindex(labels)]: the value of each label, NaN where the series
    has no such label. *)
Definition reindex {V : Type} (s : list (weekday * V)) (labels : list weekday)
  : list (weekday * cell V) :=
  map (fun d => (d, option_map snd (find (fun p => weekday_eqb (fst p) d) s)))
      labels.

Definition plot_crime_trend_by_day_of_week (dates : list (cell stamp))
    (year : Z) : list (weekday * cell nat) :=
  (* Filter the DataFrame for the specified year *)
  let df_filtered := filter (in_year year) dates in
  (* Aggregate the data by day of the week *)
  let day_of_week := dropna_values (map (option_map dt_day_name) df_filtered) in
  reindex (groupby_day_size day_of_week) week.

Definition on_day (year : Z) (d : weekday) (c : cell stamp) : bool :=
  match c with
  | Some s => (dt_year s =? year) && weekday_eqb d (dt_day_name s)
  | None => false
  end.

Lemma find_tabulate {V : Type} (g : weekday -> V) (keys : list weekday)
    (d : weekday) :
  option_map snd (find (fun p => weekday_eqb (fst p) d)
                       (map (fun k => (k, g k)) keys))
  = if existsb (fun k => weekday_eqb k d) keys then Some (g d) else None.
Proof.
  induction keys as [|k keys IH]; simpl; [reflexivity|].
  destruct (weekday_eqb k d) eqn:E; simpl; [|exact IH].
  apply weekday_eqb_eq in E. now subst.
Qed.

Lemma existsb_distinct (names : list weekday) (d : weekday) :
  existsb (fun k => weekday_eqb k d) (distinct weekday_eqb names) = true
  <-> (0 < occurrences weekday_eqb d names)%nat.
Proof.
  rewrite existsb_exists.
  rewrite <- (occurrences_pos weekday_eqb weekday_eqb_eq).
  rewrite <- (distinct_In weekday_eqb weekday_eqb_eq). split.
  - intros (k & Hk & E). apply weekday_eqb_eq in E. now subst.
  - intros H. exists d. split; [exact H | now apply weekday_eqb_eq].
Qed.

Lemma day_occurrences (dates : list (cell stamp)) (year : Z) (d : weekday) :
  occurrences weekday_eqb d
    (dropna_values (map (option_map dt_day_name) (filter (in_year year) dates)))
  = List.length (filter (on_day year d) dates).
Proof.
  unfold occurrences. induction dates as [|[s|] dates IH]; simpl; auto.
  destruct (dt_year s =? year); simpl; [|exact IH].
  destruct (weekday_eqb d (dt_day_name s)); simpl; now rewrite IH.
Qed.

Lemma week_complete (d : weekday) : In d week.
Proof. destruct d; simpl; tauto. Qed.

Lemma week_NoDup : NoDup week.
Proof. repeat constructor; simpl; intuition discriminate. Qed.

(** X15. The chart always has the seven days, Monday to Sunday. A day with crimes
    in that year carries their number; a day without any carries NaN, not 0;
    and the numbers add up to the crimes of the year. *)
Theorem day_of_week_bars (dates : list (cell stamp)) (year : Z) :
  map fst (plot_crime_trend_by_day_of_week dates year) = week
  /\ (forall d v,
        In (d, v) (plot_crime_trend_by_day_of_week dates year) ->
        let n := List.length (filter (on_day year d) dates) in
        (n = 0%nat /\ v = None) \/ ((0 < n)%nat /\ v = Some n))
  /\ list_sum (dropna_values
                 (map snd (plot_crime_trend_by_day_of_week dates year)))
     = List.length (filter (in_year year) dates).
Proof.
  unfold plot_crime_trend_by_day_of_week, reindex, groupby_day_size.
  set (names := dropna_values
                  (map (option_map dt_day_name) (filter (in_year year) dates))).
  assert (Hcell : forall d,
            option_map snd
              (find (fun p => weekday_eqb (fst p) d)
                    (map (fun k => (k, occurrences weekday_eqb k names))
                         (distinct weekday_eqb names)))
            = if (0 <? occurrences weekday_eqb d names)%nat
              then Some (occurrences weekday_eqb d names) else None).
  { intros d. rewrite (find_tabulate (fun k => occurrences weekday_eqb k names)).
    destruct (existsb _ _) eqn:E.
    - apply existsb_distinct in E. apply Nat.ltb_lt in E. now rewrite E.
    - destruct (Nat.ltb_spec 0 (occurrences weekday_eqb d names)) as [H|H];
        [|reflexivity].
      apply existsb_distinct in H. congruence. }
  split; [|split].
  - reflexivity.
  - intros d v Hin. apply in_map_iff in Hin. destruct Hin as (d' & E & _).
    injection E as -> <-. rewrite Hcell. unfold names.
    rewrite day_occurrences. cbv zeta.
    destruct (Nat.ltb_spec 0 (List.length (filter (on_day year d) dates)));
      [right; auto | left; split; [lia | reflexivity]].
  - rewrite map_map. cbn [snd].
    rewrite (map_ext _ (fun d => if (0 <? occurrences weekday_eqb d names)%nat
                                 then Some (occurrences weekday_eqb d names)
                                 else None) Hcell).
    assert (Hsum : forall l,
              list_sum (dropna_values
                (map (fun d => if (0 <? occurrences weekday_eqb d names)%nat
                               then Some (occurrences weekday_eqb d names)
                               else None) l))
              = list_sum (map (fun d => occurrences weekday_eqb d names) l)).
    { intros l. induction l as [|d l IH]; [reflexivity|].
      cbn [map dropna_values flat_map]. fold (@dropna_values nat).
      destruct (Nat.ltb_spec 0 (occurrences weekday_eqb d names)).
      - simpl. unfold dropna_values in IH. rewrite IH. reflexivity.
      - simpl. unfold dropna_values in IH. rewrite IH. lia. }
    rewrite Hsum.
    rewrite (sum_occurrences weekday_eqb weekday_eqb_eq week names week_NoDup)
      by (intros; apply week_complete).
    unfold names. rewrite dropna_values_length, filter_map_comm, length_map.
    rewrite filter_filter. apply (f_equal (@List.length _)).
    apply filter_ext. intros [s|]; simpl; [|reflexivity].
    now rewrite andb_true_r.
Qed.

End Question1.
